(** * Predictor: time-ordered cross-validation and ROC aggregation

    A shallow embedding of [minkowski/predictor.py].

    - Python floats are read as real numbers ([R]): no rounding, no NaN.
    - A Python exception is a value of [exn]; a method of [Predictor] is a
      function from the object's state to a result and the next state, so
      that what an aborted call leaves behind can be stated.
    - The classifier, the [Data] container and sklearn's ROC routine are
      collaborators: they are parameters of the development. *)

From Stdlib Require Import List ZArith Bool Arith Lia Reals Lra Psatz.
Import ListNotations.

Set Implicit Arguments.

(** ** Exceptions and results *)

(** The places where the modelled code raises [ValueError]. *)
Inductive value_error : Type :=
| InvalidFoldCount      (* TimeSeriesSplit: n_splits <= 1, or more folds than samples *)
| InconsistentSamples   (* indexable(X, y): different numbers of samples *)
| UnpackMismatch        (* tuple unpacking with the wrong number of names *)
| InterpShape           (* np.interp: empty xp, or xp and fp of different lengths *)
| AucShape              (* sklearn.metrics.auc: fewer than two points, or x and y differ *)
| AucOrder              (* sklearn.metrics.auc: x neither increasing nor decreasing *)
| BroadcastShape.       (* arithmetic on arrays whose lengths do not broadcast *)

Inductive exn : Type :=
| ValueError (w : value_error)
| IndexError
| TypeError
| CollaboratorError (code : nat).   (* raised by the classifier, Data, the metric or the ROC routine *)

Inductive result (A : Type) : Type :=
| Ok (a : A)
| Raise (e : exn).

Arguments Ok {A} a.
Arguments Raise {A} e.

Definition rbind {A B} (r : result A) (k : A -> result B) : result B :=
  match r with
  | Ok a => k a
  | Raise e => Raise e
  end.

Fixpoint mapR {A B} (f : A -> result B) (l : list A) : result (list B) :=
  match l with
  | [] => Ok []
  | a :: l' =>
      rbind (f a) (fun b => rbind (mapR f l') (fun bs => Ok (b :: bs)))
  end.

(** ** Arrays *)

(** A one-dimensional numpy array, with the two dtypes the code tells apart. *)
Inductive ndarray : Type :=
| BoolArr (l : list bool)
| FloatArr (l : list R).

Definition dtype_is_bool (a : ndarray) : bool :=
  match a with
  | BoolArr _ => true
  | FloatArr _ => false
  end.

Definition arr_len (a : ndarray) : nat :=
  match a with
  | BoolArr l => length l
  | FloatArr l => length l
  end.

(** [a[idxs]] with an integer index array: every index must be in range. *)
Definition take {A} (l : list A) (idxs : list nat) : result (list A) :=
  mapR (fun i => match nth_error l i with
                 | Some a => Ok a
                 | None => Raise IndexError
                 end) idxs.

Definition arr_take (a : ndarray) (idxs : list nat) : result ndarray :=
  match a with
  | BoolArr l => rbind (take l idxs) (fun l' => Ok (BoolArr l'))
  | FloatArr l => rbind (take l idxs) (fun l' => Ok (FloatArr l'))
  end.

(** The argument [idxs] of the prediction methods: the default
    [slice(None)] or an index array. *)
Inductive index : Type :=
| SliceAll
| Idxs (l : list nat).

Definition select {A} (l : list A) (i : index) : result (list A) :=
  match i with
  | SliceAll => Ok l
  | Idxs idxs => take l idxs
  end.

Definition arr_select (a : ndarray) (i : index) : result ndarray :=
  match i with
  | SliceAll => Ok a
  | Idxs idxs => arr_take a idxs
  end.

(** A two-dimensional array of floats (what [predict_proba] returns). *)
Record matrix : Type := Matrix { ncols : nat; mrows : list (list R) }.

(** [m[:, 1]] *)
Definition column1 (m : matrix) : result (list R) :=
  if 2 <=? ncols m
  then Ok (map (fun r => nth 1 r 0%R) (mrows m))
  else Raise IndexError.

Definition bool_to_R (b : bool) : R := if b then 1%R else 0%R.

Definition as_float (a : ndarray) : list R :=
  match a with
  | BoolArr l => map bool_to_R l
  | FloatArr l => l
  end.

(** ** sklearn.model_selection.TimeSeriesSplit

    Line 52 builds [TimeSeriesSplit(n_splits=K)] and line 55 iterates over
    [cv.split(X, y)].  The class belongs to scikit-learn; the two functions
    below follow its constructor and its [split] for the defaults the
    source leaves in place ([gap = 0], no [test_size], no
    [max_train_size]). *)

(** [range(start, stop, step)] for a positive step. *)
Definition py_range (start stop step : Z) : list Z :=
  map (fun i => (start + Z.of_nat i * step)%Z)
      (seq 0 (Z.to_nat ((stop - start + step - 1) / step))).

Definition TimeSeriesSplit_init (n_splits : Z) : result Z :=
  if (n_splits <=? 1)%Z then Raise (ValueError InvalidFoldCount) else Ok n_splits.

Definition split_at (test_size test_start : Z) : list nat * list nat :=
  (seq 0 (Z.to_nat test_start),
   seq (Z.to_nat test_start) (Z.to_nat test_size)).

Definition TimeSeriesSplit_split (n_splits : Z) (len_X len_y : nat)
  : result (list (list nat * list nat)) :=
  if negb (len_X =? len_y) then Raise (ValueError InconsistentSamples)
  else
    let n_samples := Z.of_nat len_X in
    let n_folds := (n_splits + 1)%Z in
    let gap := 0%Z in
    let test_size := (n_samples / n_folds)%Z in
    if (n_folds >? n_samples)%Z then Raise (ValueError InvalidFoldCount)
    else if (n_samples - gap - test_size * n_splits <=? 0)%Z
         then Raise (ValueError InvalidFoldCount)
         else Ok (map (split_at test_size)
                      (py_range (n_samples - n_splits * test_size) n_samples test_size)).

(** ** Collaborators *)

(** The classifier object behind [self._cov_model].  [fit] trains in place:
    it returns the object's next state, also when it raises. *)
Class Classifier (row clf : Type) : Type := {
  fit : clf -> list row -> ndarray -> result unit * clf;
  predict_proba : clf -> list row -> result matrix;
  predict : clf -> list row -> result (list R)
}.

(** The [Data] container, as far as [Predictor] uses it. *)
Record Data (row df : Type) : Type := {
  get_training_covariates : list row;
  predictand : ndarray;
  prepare_covariates : df -> result (list row)
}.

(** What [RocCurveDisplay.from_predictions] hands back (the drawing apart). *)
Record RocCurveDisplay : Type := {
  fpr : list R;
  tpr : list R;
  roc_auc : R
}.

(** ** Numeric routines of numpy and sklearn.metrics *)

Open Scope R_scope.

Definition Rsum (l : list R) : R := fold_right Rplus 0 l.

(** [np.mean] of a one-dimensional, non-empty array *)
Definition mean (l : list R) : R := Rsum l / INR (length l).

(** [np.std] of a one-dimensional, non-empty array (ddof = 0) *)
Definition std (l : list R) : R :=
  sqrt (mean (map (fun x => Rsqr (x - mean l)) l)).

(** Column [j] of a list of equally long rows. *)
Definition column (rows : list (list R)) (j : nat) : list R :=
  map (fun r => nth j r 0) rows.

(** [np.mean(rows, axis=0)] and [np.std(rows, axis=0)] for rows of width [n]. *)
Definition mean_axis0 (n : nat) (rows : list (list R)) : list R :=
  map (fun j => mean (column rows j)) (seq 0 n).

Definition std_axis0 (n : nat) (rows : list (list R)) : list R :=
  map (fun j => std (column rows j)) (seq 0 n).

(** [np.linspace(0, 1, n)] *)
Definition linspace01 (n : nat) : list R :=
  map (fun i => INR i / INR (n - 1)) (seq 0 n).

(** [np.interp] at one point.  numpy locates the interval by bisection and
    expects [xp] non-decreasing; on such input it finds the interval that
    the scan below finds.  Left of [xp] the value is [fp[0]], right of it
    [fp[-1]]. *)
Fixpoint interp_scan (x x0 f0 : R) (pts : list (R * R)) : R :=
  match pts with
  | [] => f0
  | (x1, f1) :: pts' =>
      if Rle_dec x1 x then interp_scan x x1 f1 pts'
      else f0 + (f1 - f0) / (x1 - x0) * (x - x0)
  end.

Definition interp1 (x : R) (pts : list (R * R)) : R :=
  match pts with
  | [] => 0
  | (x0, f0) :: pts' =>
      if Rlt_dec x x0 then f0 else interp_scan x x0 f0 pts'
  end.

Definition interp (xs xp fp : list R) : result (list R) :=
  match xp with
  | [] => Raise (ValueError InterpShape)
  | _ :: _ =>
      if length xp =? length fp
      then Ok (map (fun x => interp1 x (combine xp fp)) xs)
      else Raise (ValueError InterpShape)
  end.

(** [a[0] = v] and [a[-1] = v] *)
Definition set_first (v : R) (a : list R) : result (list R) :=
  match a with
  | [] => Raise IndexError
  | _ :: a' => Ok (v :: a')
  end.

Definition set_last (v : R) (a : list R) : result (list R) :=
  match a with
  | [] => Raise IndexError
  | _ :: _ => Ok (removelast a ++ [v])
  end.

(** [np.diff] *)
Fixpoint diff (x : list R) : list R :=
  match x with
  | x0 :: ((x1 :: _) as x') => (x1 - x0) :: diff x'
  | _ => []
  end.

(** [np.trapz(y, x)] for arrays of one length *)
Fixpoint trapz (y x : list R) : R :=
  match x, y with
  | x0 :: ((x1 :: _) as x'), y0 :: ((y1 :: _) as y') =>
      (x1 - x0) * (y0 + y1) / 2 + trapz y' x'
  | _, _ => 0
  end.

Definition Rltb (a b : R) : bool := if Rlt_dec a b then true else false.
Definition Rleb (a b : R) : bool := if Rle_dec a b then true else false.

(** [sklearn.metrics.auc(x, y)] *)
Definition auc (x y : list R) : result R :=
  if negb (length x =? length y) then Raise (ValueError AucShape)
  else if length x <? 2 then Raise (ValueError AucShape)
  else
    let dx := diff x in
    if existsb (fun d => Rltb d 0) dx
    then if forallb (fun d => Rleb d 0) dx
         then Ok (-1 * trapz y x)
         else Raise (ValueError AucOrder)
    else Ok (1 * trapz y x).

(** The trapezoidal area under the points [(x[i], y[i])], as a sum over
    the intervals: the words of the summary, to compare [auc] with. *)
Definition trapezoid_area (x y : list R) : R :=
  Rsum (map (fun i => (nth (S i) x 0 - nth i x 0) * (nth i y 0 + nth (S i) y 0) / 2)
            (seq 0 (length x - 1))).

(** An elementwise operation on two equally long arrays. *)
Fixpoint zip_with (f : R -> R -> R) (a b : list R) : list R :=
  match a, b with
  | x :: a', y :: b' => f x y :: zip_with f a' b'
  | _, _ => []
  end.

(** [a - b] on one-dimensional arrays: elementwise for equal lengths, an
    array of length 1 is stretched, any other pair of lengths raises. *)
Definition np_subtract (a b : list R) : result (list R) :=
  if length a =? length b then Ok (zip_with Rminus a b)
  else if length a =? 1 then Ok (map (fun y => hd 0 a - y) b)
  else if length b =? 1 then Ok (map (fun x => x - hd 0 b) a)
  else Raise (ValueError BroadcastShape).

Close Scope R_scope.

(** ** The Predictor object *)

Section PredictorModel.

Context {row df clf : Type} `{Classifier row clf}.

(** [sklearn.metrics.RocCurveDisplay.from_predictions(y_true, y_pred)] *)
Variable from_predictions : ndarray -> ndarray -> result RocCurveDisplay.

(** [_data] holds the Data object the reference points to, as it is when a
    method runs: a change made to that object from outside is a change of
    this field.  [_cross_val_res] is [None] or a tuple of lists of arrays. *)
Record Predictor : Type := {
  _data : Data row df;
  _cv_splits : Z;
  _cov_model : clf;
  _X : list row;
  _y : ndarray;
  _cross_val_res : option (list (list ndarray));
  _is_binary : bool
}.

(** [Predictor.__init__]; [cv_splits] is 5 when the caller leaves it out. *)
Definition Predictor_init (data : Data row df) (covariate_model : clf)
    (cv_splits : Z) : Predictor :=
  {| _data := data;
     _cv_splits := cv_splits;
     _cov_model := covariate_model;
     _X := get_training_covariates data;
     _y := predictand data;
     _cross_val_res := None;
     _is_binary := dtype_is_bool (predictand data) |}.

Definition set_cov_model (p : Predictor) (m : clf) : Predictor :=
  {| _data := _data p; _cv_splits := _cv_splits p; _cov_model := m;
     _X := _X p; _y := _y p; _cross_val_res := _cross_val_res p;
     _is_binary := _is_binary p |}.

Definition set_cross_val_res (p : Predictor)
    (c : option (list (list ndarray))) : Predictor :=
  {| _data := _data p; _cv_splits := _cv_splits p; _cov_model := _cov_model p;
     _X := _X p; _y := _y p; _cross_val_res := c;
     _is_binary := _is_binary p |}.


(** A method: runs on the object's state, returns or raises, and leaves
    the object in a next state either way. *)
Definition M (A : Type) : Type := Predictor -> result A * Predictor.

Definition ret {A} (a : A) : M A := fun p => (Ok a, p).

Definition bind {A B} (c : M A) (k : A -> M B) : M B :=
  fun p => match c p with
           | (Ok a, p') => k a p'
           | (Raise e, p') => (Raise e, p')
           end.

Definition lift {A} (r : result A) : M A := fun p => (r, p).

Definition self {A} (f : Predictor -> A) : M A := fun p => (Ok (f p), p).

Notation "x <- c ;; k" := (bind c (fun x => k))
  (at level 61, c at next level, right associativity).
Notation "c ;;; k" := (bind c (fun _ => k))
  (at level 61, right associativity).

(** [fit_covariate_model] *)
Definition fit_covariate_model (train_idxs : option (list nat)) : M unit :=
  match train_idxs with
  | None =>
      fun p => let (r, m) := fit (_cov_model p) (_X p) (_y p) in
               (r, set_cov_model p m)
  | Some idxs =>
      X <- (fun p => (take (_X p) idxs, p)) ;;
      y <- (fun p => (arr_take (_y p) idxs, p)) ;;
      fun p => let (r, m) := fit (_cov_model p) X y in
               (r, set_cov_model p m)
  end.

(** [get_covariate_probability] *)
Definition get_covariate_probability (idxs : index) : M (list R) :=
  fun p =>
    (if _is_binary p
     then rbind (select (_X p) idxs) (fun X =>
          rbind (predict_proba (_cov_model p) X) column1)
     else rbind (select (_X p) idxs) (fun X =>
          predict (_cov_model p) X),
     p).

(** [predict_covariate_probability] *)
Definition predict_covariate_probability (d : df) : M (list R) :=
  X <- (fun p => (prepare_covariates (_data p) d, p)) ;;
  fun p =>
    (if _is_binary p
     then rbind (predict_proba (_cov_model p) X) column1
     else predict (_cov_model p) X,
     p).

(** [get_residuals] *)
Definition get_residuals (idxs : index) : M (list R) :=
  prob <- get_covariate_probability idxs ;;
  y <- (fun p => (arr_select (_y p) idxs, p)) ;;
  lift (np_subtract prob (as_float y)).

(** The body of the loop of [calc_cross_validation], over the splits the
    generator still has to yield. *)
Fixpoint cv_loop (splits : list (list nat * list nat))
    (ground_truth prediction : list ndarray)
  : M (list ndarray * list ndarray) :=
  match splits with
  | [] => ret (ground_truth, prediction)
  | (train, test) :: rest =>
      fit_covariate_model (Some train) ;;;
      gt <- (fun p => (arr_take (_y p) test, p)) ;;
      pr <- get_covariate_probability (Idxs test) ;;
      cv_loop rest (ground_truth ++ [gt]) (prediction ++ [FloatArr pr])
  end.

(** Lines 56-58 for one split: the two arrays the round appends. *)
Definition cv_fold (train test : list nat) : M (ndarray * ndarray) :=
  fit_covariate_model (Some train) ;;;
  gt <- (fun p => (arr_take (_y p) test, p)) ;;
  pr <- get_covariate_probability (Idxs test) ;;
  ret (gt, FloatArr pr).

(** [calc_cross_validation] *)
Definition calc_cross_validation : M unit :=
  n_splits <- (fun p => (TimeSeriesSplit_init (_cv_splits p), p)) ;;
  splits <- (fun p => (TimeSeriesSplit_split n_splits (length (_X p))
                                             (arr_len (_y p)), p)) ;;
  res <- cv_loop splits [] [] ;;
  fun p => (Ok tt, set_cross_val_res p (Some [fst res; snd res])).

(** Lines 63-64 and 74-75: compute the cross-validation if none is stored. *)
Definition ensure_cross_val : M unit :=
  fun p => match _cross_val_res p with
           | None => calc_cross_validation p
           | Some _ => (Ok tt, p)
           end.

(** [a, b = self._cross_val_res] *)
Definition unpack2 : M (list ndarray * list ndarray) :=
  fun p => match _cross_val_res p with
           | None => (Raise TypeError, p)
           | Some [a; b] => (Ok (a, b), p)
           | Some _ => (Raise (ValueError UnpackMismatch), p)
           end.

(** [a, b, c = self._cross_val_res] *)
Definition unpack3 : M (list ndarray * list ndarray * list ndarray) :=
  fun p => match _cross_val_res p with
           | None => (Raise TypeError, p)
           | Some [a; b; c] => (Ok (a, b, c), p)
           | Some _ => (Raise (ValueError UnpackMismatch), p)
           end.

(** [l[i]] for [i >= 0] *)
Definition item {A} (l : list A) (i : nat) : result A :=
  match nth_error l i with
  | Some a => Ok a
  | None => Raise IndexError
  end.

(** [range(n)] *)
Definition range (n : Z) : list nat := seq 0 (Z.to_nat n).

(** [get_cross_val_metric] *)
Definition get_cross_val_metric {A} (metric : ndarray -> ndarray -> result A)
  : M (list A) :=
  ensure_cross_val ;;;
  gp <- unpack2 ;;
  K <- self _cv_splits ;;
  lift (mapR (fun i => rbind (item (fst gp) i) (fun g =>
                       rbind (item (snd gp) i) (fun q => metric g q)))
             (range K)).

(** What [plot_cross_validation_roc] computes and hands to the drawing
    calls [ax.plot] and [ax.fill_between]. *)
Record AggregatedROC : Type := {
  mean_fpr : list R;
  mean_tpr : list R;
  mean_auc : R;
  std_auc : R;
  std_tpr : list R;
  tprs_upper : list R;
  tprs_lower : list R
}.

(** One round of the loop of lines 84-98: the fold's curve, interpolated on
    the grid with its first value set to 0, and the fold's area. *)
Definition roc_fold (grid : list R) (ground_truth pred_probability : list ndarray)
    (fold : nat) : result (list R * R) :=
  rbind (item ground_truth fold) (fun g =>
  rbind (item pred_probability fold) (fun q =>
  rbind (from_predictions g q) (fun viz =>
  rbind (interp grid (fpr viz) (tpr viz)) (fun interp_tpr =>
  rbind (set_first 0%R interp_tpr) (fun interp_tpr =>
  Ok (interp_tpr, roc_auc viz)))))).

(** The area of one fold's own curve, as line 98 collects it. *)
Definition fold_auc (ground_truth pred_probability : list ndarray)
    (fold : nat) : result R :=
  rbind (item ground_truth fold) (fun g =>
  rbind (item pred_probability fold) (fun q =>
  rbind (from_predictions g q) (fun viz => Ok (roc_auc viz)))).

(** Lines 100-117.  With no fold at all [np.mean] gives a scalar and the
    assignment to its last item raises. *)
Definition roc_summary (grid : list R) (tprs : list (list R)) (aucs : list R)
  : result AggregatedROC :=
  match tprs with
  | [] => Raise TypeError
  | _ :: _ =>
      rbind (set_last 1%R (mean_axis0 (length grid) tprs)) (fun mean_tpr =>
      rbind (auc grid mean_tpr) (fun mean_auc =>
      let std_auc := std aucs in
      let std_tpr := std_axis0 (length grid) tprs in
      let tprs_upper := map (fun v => Rmin v 1) (zip_with Rplus mean_tpr std_tpr) in
      let tprs_lower := map (fun v => Rmax v 0) (zip_with Rminus mean_tpr std_tpr) in
      Ok {| mean_fpr := grid; mean_tpr := mean_tpr; mean_auc := mean_auc;
            std_auc := std_auc; std_tpr := std_tpr;
            tprs_upper := tprs_upper; tprs_lower := tprs_lower |}))
  end.

(** Lines 77-117, from the unpacked lists on. *)
Definition roc_aggregate (K : Z) (ground_truth pred_probability : list ndarray)
  : result AggregatedROC :=
  let grid := linspace01 100 in
  rbind (mapR (roc_fold grid ground_truth pred_probability) (range K))
        (fun folds => roc_summary grid (map fst folds) (map snd folds)).

(** [plot_cross_validation_roc] *)
Definition plot_cross_validation_roc : M AggregatedROC :=
  ensure_cross_val ;;;
  gpp <- unpack3 ;;
  K <- self _cv_splits ;;
  lift (roc_aggregate K (fst (fst gpp)) (snd (fst gpp))).

(** ** Vocabulary of the statements *)

(** [p'] is [p] except, at most, for the state of the classifier. *)
Definition model_only (p p' : Predictor) : Prop :=
  p' = set_cov_model p (_cov_model p').

(** Column 1 of [predict_proba]: the probability of the second class,
    which is [True] for boolean labels. *)
Definition positive_class_probability (m : clf) (X : list row) : result (list R) :=
  rbind (predict_proba m X) column1.



(** The folds a stored result holds, as (ground truth, prediction) pairs. *)
Definition cached_folds (p : Predictor) : list (ndarray * ndarray) :=
  match _cross_val_res p with
  | Some [g; q] => combine g q
  | _ => []
  end.

End PredictorModel.

Definition in_unit (v : R) : Prop := (0 <= v <= 1)%R.

(** ** Small collaborators to run the model on *)

(** A classifier that counts its fits, refuses training sets of four rows
    or more, gives every row the class probabilities (1/2, 1/2) and, as a
    regressor, predicts the row's own feature. *)
Inductive toy : Type := Toy (fits : nat).

Definition toy_fits (m : toy) : nat := let (n) := m in n.

#[export] Instance toy_classifier : Classifier nat toy := {
  fit m X y :=
    if 4 <=? length X then (Raise (CollaboratorError 1), m)
    else (Ok tt, Toy (S (toy_fits m)));
  predict_proba m X := Ok (Matrix 2 (map (fun _ => [1 / 2; 1 / 2]%R) X));
  predict m X := Ok (map (fun x => IZR (Z.of_nat x)) X)
}.

(** The ROC curve of a score that is the same for every sample: the
    diagonal. *)
Definition diagonal_roc (g q : ndarray) : result RocCurveDisplay :=
  Ok {| fpr := [0; 1]%R; tpr := [0; 1]%R; roc_auc := (1 / 2)%R |}.

Definition toy_data (y : ndarray) (n : nat) : Data nat (list nat) :=
  {| get_training_covariates := seq 0 n;
     predictand := y;
     prepare_covariates := fun d => Ok d |}.


Definition labels3 : ndarray := BoolArr [false; true; false].
Definition labels6 : ndarray := BoolArr [false; true; false; true; true; false].
Definition values3 : ndarray := FloatArr [3; 5; 8]%R.

(** Three samples, two folds: both fits are accepted. *)
Definition small_predictor : Predictor :=
  Predictor_init (toy_data labels3 3) (Toy 0) 2.

(** Six samples, two folds: the second fold trains on four rows and its
    fit raises. *)
Definition failing_predictor : Predictor :=
  Predictor_init (toy_data labels6 6) (Toy 0) 2.

(** Three samples and a single fold. *)
Definition single_fold_predictor : Predictor :=
  Predictor_init (toy_data labels3 3) (Toy 0) 1.

(** Three samples with a real-valued predictand. *)
Definition regression_predictor : Predictor :=
  Predictor_init (toy_data values3 3) (Toy 0) 2.

(** The metric that hands back the fold itself. *)
Definition fold_itself (g q : ndarray) : result (ndarray * ndarray) := Ok (g, q).

(** ** Further vocabulary *)

Section MoreVocabulary.

Context {row df clf : Type} `{Classifier row clf}.

(** What the methods keep true of [_cross_val_res]: it is [None], or the
    pair of lists with one array per fold. *)
Definition cache_wf (p : @Predictor row df clf) : Prop :=
  _cross_val_res p = None
  \/ exists g q, _cross_val_res p = Some [g; q]
                 /\ length g = Z.to_nat (_cv_splits p)
                 /\ length q = Z.to_nat (_cv_splits p).

(** A method under which a property of the object persists. *)
Definition preserves {A} (I : @Predictor row df clf -> Prop)
    (c : @M row df clf A) : Prop :=
  forall p, I p -> I (snd (c p)).

(** A method that does not look at the stored result: run with [c]
    stored, it returns what it returns otherwise and leaves the same
    object, with [c] still stored. *)
Definition cache_blind {A} (m : @M row df clf A) : Prop :=
  forall c p, m (set_cross_val_res p c)
              = (fst (m p), set_cross_val_res (snd (m p)) c).

(** A classifier together with the number of calls of its [fit]. *)
Record counted : Type := Counted { inner : clf; fit_calls : nat }.

Definition counted_classifier : Classifier row counted :=
  {| fit m X y := let (r, m') := fit (inner m) X y in
                  (r, Counted m' (S (fit_calls m)));
     predict_proba m X := predict_proba (inner m) X;
     predict m X := predict (inner m) X |}.

End MoreVocabulary.

Arguments counted : clear implicits.

Definition in_sym_unit (v : R) : Prop := (-1 <= v <= 1)%R.

(** The splits of [n] samples in [K] folds, described by their sizes. *)
Definition block_size (K : Z) (n : nat) : nat := Z.to_nat (Z.of_nat n / (K + 1)).

(** The cross-validation of three samples, with the fits counted. *)
Definition counted_predictor : @Predictor nat (list nat) (counted toy) :=
  Predictor_init (toy_data labels3 3) (Counted (Toy 0) 0) 2.

(** * Properties *)

(** ** The splitter *)

(** The number of test starts: [n - K*ts, n - (K-1)*ts, ..., n - ts]. *)
Lemma range_count (K ts : Z) :
  (0 <= K)%Z -> (1 <= ts)%Z -> ((K * ts + ts - 1) / ts = K)%Z.
Proof.
  intros HK Hts.
  symmetry. apply Z.div_unique with (r := (ts - 1)%Z); lia.
Qed.

Lemma test_size_positive (n K : Z) :
  (0 <= K)%Z -> (K + 1 <= n)%Z -> (1 <= n / (K + 1))%Z.
Proof.
  intros HK Hn. apply Z.div_le_lower_bound; lia.
Qed.

Lemma test_blocks_fit (n K : Z) :
  (0 <= K)%Z -> (K + 1 <= n)%Z -> (n / (K + 1) * K < n)%Z.
Proof.
  intros HK Hn.
  pose proof (test_size_positive HK Hn) as Hts.
  pose proof (Z.mul_div_le n (K + 1) ltac:(lia)) as Hle.
  nia.
Qed.

(** With at least [K + 1] samples the splitter returns, and what it
    returns is the [K] splits that start at [n - (K - i) * test_size]. *)
Lemma TimeSeriesSplit_split_ok (K : Z) (n : nat) :
  (0 <= K)%Z -> (K + 1 <= Z.of_nat n)%Z ->
  TimeSeriesSplit_split K n n
  = Ok (map (split_at (Z.of_nat n / (K + 1)))
            (map (fun i => (Z.of_nat n - K * (Z.of_nat n / (K + 1))
                            + Z.of_nat i * (Z.of_nat n / (K + 1)))%Z)
                 (seq 0 (Z.to_nat K)))).
Proof.
  intros HK Hn. unfold TimeSeriesSplit_split.
  rewrite Nat.eqb_refl. cbn [negb].
  destruct (Z.gtb_spec (K + 1) (Z.of_nat n)); [lia|].
  pose proof (test_blocks_fit HK Hn) as Hfit.
  pose proof (test_size_positive HK Hn) as Hts.
  destruct (Z.leb_spec (Z.of_nat n - 0 - Z.of_nat n / (K + 1) * K) 0); [lia|].
  unfold py_range.
  replace (Z.of_nat n - (Z.of_nat n - K * (Z.of_nat n / (K + 1)))
           + Z.of_nat n / (K + 1) - 1)%Z
    with (K * (Z.of_nat n / (K + 1)) + Z.of_nat n / (K + 1) - 1)%Z by lia.
  now rewrite range_count.
Qed.

Lemma TimeSeriesSplit_split_length (K : Z) (n m : nat) splits :
  (0 <= K)%Z ->
  TimeSeriesSplit_split K n m = Ok splits -> length splits = Z.to_nat K.
Proof.
  intros HK Hs.
  assert (n = m /\ (K + 1 <= Z.of_nat n)%Z) as [-> Hn].
  { unfold TimeSeriesSplit_split in Hs.
    destruct (Nat.eqb_spec n m); cbn [negb] in Hs; [|discriminate].
    destruct (Z.gtb_spec (K + 1) (Z.of_nat n)); [discriminate|]. lia. }
  rewrite TimeSeriesSplit_split_ok in Hs by assumption.
  injection Hs as <-. now rewrite !length_map, length_seq.
Qed.

(** Every test block has [n / (K + 1)] indices, and every training set is
    the range of indices before its test block. *)
Lemma TimeSeriesSplit_split_shape (K : Z) (n m : nat) splits :
  (0 <= K)%Z ->
  TimeSeriesSplit_split K n m = Ok splits ->
  Forall (fun s => length (snd s) = Z.to_nat (Z.of_nat n / (K + 1))
                   /\ fst s = seq 0 (length (fst s))
                   /\ snd s = seq (length (fst s)) (length (snd s))) splits.
Proof.
  intros HK Hs.
  assert (n = m /\ (K + 1 <= Z.of_nat n)%Z) as [-> Hn].
  { unfold TimeSeriesSplit_split in Hs.
    destruct (Nat.eqb_spec n m); cbn [negb] in Hs; [|discriminate].
    destruct (Z.gtb_spec (K + 1) (Z.of_nat n)); [discriminate|]. lia. }
  rewrite TimeSeriesSplit_split_ok in Hs by assumption.
  injection Hs as <-.
  apply Forall_forall. intros s Hin.
  apply in_map_iff in Hin. destruct Hin as [start [<- _]].
  unfold split_at. cbn [fst snd]. now rewrite !length_seq.
Qed.

(** The splitter raises exactly when [K < 2] stops the constructor or
    fewer than [K + 1] samples stop [split]. *)
Lemma too_few_samples (K : Z) (n : nat) :
  (Z.of_nat n < K + 1)%Z ->
  TimeSeriesSplit_split K n n = Raise (ValueError InvalidFoldCount).
Proof.
  intros Hn. unfold TimeSeriesSplit_split.
  rewrite Nat.eqb_refl. cbn [negb].
  destruct (Z.gtb_spec (K + 1) (Z.of_nat n)); [reflexivity|lia].
Qed.

(** A test block is empty exactly when there are fewer than [K + 1]
    samples. *)
Lemma empty_test_block_iff (K n : Z) :
  (0 <= K)%Z -> (0 <= n)%Z -> (n / (K + 1) = 0 <-> n < K + 1)%Z.
Proof.
  intros HK Hn. split; intros Hlt.
  - apply Z.div_small_iff in Hlt; lia.
  - apply Z.div_small. lia.
Qed.

(** ** What the methods leave unchanged *)

Section PredictorFacts.

Context {row df clf : Type} `{Classifier row clf}.

Implicit Types p : @Predictor row df clf.

Lemma model_only_refl p : model_only p p.
Proof. now destruct p. Qed.

Lemma model_only_trans p p1 p2 :
  model_only p p1 -> model_only p1 p2 -> model_only p p2.
Proof. unfold model_only. intros -> ->. reflexivity. Qed.

Lemma model_only_fields p p' :
  model_only p p' ->
  _data p' = _data p /\ _cv_splits p' = _cv_splits p /\ _X p' = _X p
  /\ _y p' = _y p /\ _is_binary p' = _is_binary p
  /\ _cross_val_res p' = _cross_val_res p.
Proof. unfold model_only. intros ->. repeat split. Qed.

Lemma fit_covariate_model_frame train_idxs p r p' :
  fit_covariate_model train_idxs p = (r, p') -> model_only p p'.
Proof.
  unfold fit_covariate_model, bind. intros Hrun.
  destruct train_idxs as [idxs|].
  - destruct (take (_X p) idxs); [|injection Hrun as _ <-; apply model_only_refl].
    destruct (arr_take (_y p) idxs); [|injection Hrun as _ <-; apply model_only_refl].
    destruct (fit (_cov_model p) a a0) as [r0 m]. injection Hrun as _ <-.
    reflexivity.
  - destruct (fit (_cov_model p) (_X p) (_y p)) as [r0 m]. injection Hrun as _ <-.
    reflexivity.
Qed.

Lemma get_covariate_probability_pure idxs p :
  snd (get_covariate_probability idxs p) = p.
Proof. reflexivity. Qed.

Lemma cv_loop_frame splits : forall g q p r p',
  cv_loop splits g q p = (r, p') -> model_only p p'.
Proof.
  induction splits as [|[train test] rest IH]; intros g q p r p' Hrun.
  - injection Hrun as _ <-. apply model_only_refl.
  - cbn [cv_loop] in Hrun. unfold bind at 1 in Hrun.
    destruct (fit_covariate_model (Some train) p) as [rf p1] eqn:Hfit.
    apply fit_covariate_model_frame in Hfit.
    destruct rf as [[]|e]; [|injection Hrun as _ <-; exact Hfit].
    unfold bind at 1 in Hrun.
    destruct (arr_take (_y p1) test) as [gt|e];
      [|injection Hrun as _ <-; exact Hfit].
    unfold bind at 1 in Hrun.
    destruct (get_covariate_probability (Idxs test) p1) as [rp p2] eqn:Hpred.
    assert (p2 = p1) as -> by (now rewrite <- (get_covariate_probability_pure (Idxs test) p1), Hpred).
    destruct rp as [pr|e]; [|injection Hrun as _ <-; exact Hfit].
    apply IH in Hrun. eapply model_only_trans; eassumption.
Qed.

(** A completed loop has appended one array per split to either list. *)
Lemma cv_loop_lengths splits : forall g q p g' q' p',
  cv_loop splits g q p = (Ok (g', q'), p') ->
  length g' = (length g + length splits)%nat
  /\ length q' = (length q + length splits)%nat.
Proof.
  induction splits as [|[train test] rest IH]; intros g q p g' q' p' Hrun.
  - injection Hrun as <- <- _. cbn. lia.
  - cbn [cv_loop] in Hrun. unfold bind at 1 in Hrun.
    destruct (fit_covariate_model (Some train) p) as [[[]|e] p1]; [|discriminate].
    unfold bind at 1 in Hrun.
    destruct (arr_take (_y p1) test) as [gt|e]; [|discriminate].
    unfold bind at 1 in Hrun.
    destruct (get_covariate_probability (Idxs test) p1) as [[pr|e] p2]; [|discriminate].
    apply IH in Hrun. rewrite !length_app in Hrun. cbn in *. lia.
Qed.

(** [calc_cross_validation] either raises and leaves everything but the
    classifier as it was, or stores a pair of lists with one array per
    fold. *)
Lemma calc_cross_validation_raise p e p' :
  calc_cross_validation p = (Raise e, p') -> model_only p p'.
Proof.
  unfold calc_cross_validation, bind. intros Hrun.
  destruct (TimeSeriesSplit_init (_cv_splits p)) as [K|e0];
    [|injection Hrun as _ <-; apply model_only_refl].
  destruct (TimeSeriesSplit_split K (length (_X p)) (arr_len (_y p))) as [splits|e0];
    [|injection Hrun as _ <-; apply model_only_refl].
  destruct (cv_loop splits [] [] p) as [[res|e0] p1] eqn:Hloop; [discriminate|].
  injection Hrun as _ <-. eapply cv_loop_frame; eassumption.
Qed.

Lemma calc_cross_validation_ok p u p' :
  calc_cross_validation p = (Ok u, p') ->
  exists g q p1,
    model_only p p1
    /\ p' = set_cross_val_res p1 (Some [g; q])
    /\ length g = Z.to_nat (_cv_splits p)
    /\ length q = Z.to_nat (_cv_splits p)
    /\ (2 <= _cv_splits p)%Z.
Proof.
  unfold calc_cross_validation, bind. intros Hrun.
  unfold TimeSeriesSplit_init in Hrun.
  destruct (Z.leb_spec (_cv_splits p) 1) as [|HK]; [discriminate|].
  destruct (TimeSeriesSplit_split (_cv_splits p) (length (_X p)) (arr_len (_y p)))
    as [splits|e0] eqn:Hsplit; [|discriminate].
  destruct (cv_loop splits [] [] p) as [[[g q]|e0] p1] eqn:Hloop; [|discriminate].
  injection Hrun as _ <-.
  exists g, q, p1.
  pose proof (cv_loop_frame _ _ _ _ Hloop) as Hframe.
  apply cv_loop_lengths in Hloop. cbn [length] in Hloop.
  apply TimeSeriesSplit_split_length in Hsplit; [|lia].
  cbn [fst snd]. repeat split; try lia; assumption.
Qed.

(** The loop runs one round and goes on with the rest, or stops at the
    round that raises. *)
Lemma cv_loop_cons train test rest g q p :
  cv_loop ((train, test) :: rest) g q p
  = match cv_fold train test p with
    | (Ok r, p1) => cv_loop rest (g ++ [fst r]) (q ++ [snd r]) p1
    | (Raise e, p1) => (Raise e, p1)
    end.
Proof.
  cbn [cv_loop]. unfold cv_fold, bind, ret.
  destruct (fit_covariate_model (Some train) p) as [[[]|e] p1]; [|reflexivity].
  destruct (arr_take (_y p1) test) as [gt|e]; [|reflexivity].
  destruct (get_covariate_probability (Idxs test) p1) as [[pr|e] p2]; reflexivity.
Qed.

Lemma cv_loop_app s1 : forall s2 g q p,
  cv_loop (s1 ++ s2) g q p
  = match cv_loop s1 g q p with
    | (Ok r, p1) => cv_loop s2 (fst r) (snd r) p1
    | (Raise e, p1) => (Raise e, p1)
    end.
Proof.
  induction s1 as [|[train test] s1 IH]; intros s2 g q p.
  - reflexivity.
  - rewrite <- app_comm_cons, !cv_loop_cons.
    destruct (cv_fold train test p) as [[r|e] p1]; [apply IH|reflexivity].
Qed.

Lemma cv_fold_frame train test p r p' :
  cv_fold train test p = (r, p') -> model_only p p'.
Proof.
  intros Hrun.
  pose proof (cv_loop_cons train test [] [] [] p) as Hcons.
  rewrite Hrun in Hcons.
  destruct r as [r|e];
    apply (cv_loop_frame [(train, test)] [] [] p (p' := p') Hcons).
Qed.

(** The round that raises ends the whole method with its exception. *)
Lemma calc_cross_validation_abort p K splits i train test g q p1 e p2 :
  TimeSeriesSplit_init (_cv_splits p) = Ok K ->
  TimeSeriesSplit_split K (length (_X p)) (arr_len (_y p)) = Ok splits ->
  nth_error splits i = Some (train, test) ->
  cv_loop (firstn i splits) [] [] p = (Ok (g, q), p1) ->
  cv_fold train test p1 = (Raise e, p2) ->
  calc_cross_validation p = (Raise e, p2).
Proof.
  intros HK Hsplit Hnth Hbefore Hfold.
  unfold calc_cross_validation, bind. rewrite HK, Hsplit.
  rewrite <- (firstn_skipn i splits) at 1.
  rewrite cv_loop_app, Hbefore. cbn [fst snd].
  assert (skipn i splits = (train, test) :: skipn (S i) splits) as ->.
  { clear -Hnth. revert i Hnth.
    induction splits as [|s splits IH]; intros [|i] Hnth; try discriminate.
    - now injection Hnth as ->.
    - cbn. now apply IH. }
  now rewrite cv_loop_cons, Hfold.
Qed.

(** ** The cached cross-validation *)

Lemma ensure_cross_val_cached p c :
  _cross_val_res p = Some c -> ensure_cross_val p = (Ok tt, p).
Proof. unfold ensure_cross_val. now intros ->. Qed.

(** With a stored result, [get_cross_val_metric] leaves the whole object
    as it is, whatever the metric. *)
Lemma get_cross_val_metric_cached {A} (metric : ndarray -> ndarray -> result A) p c :
  _cross_val_res p = Some c -> snd (get_cross_val_metric metric p) = p.
Proof.
  intros Hc. unfold get_cross_val_metric, bind.
  rewrite (ensure_cross_val_cached _ Hc). unfold unpack2. rewrite Hc.
  destruct c as [|a [|b [|x c]]]; reflexivity.
Qed.

(** Whatever the metric, a call that returned can be repeated: the same
    scores come back and the object stays as the first call left it. *)
Lemma get_cross_val_metric_repeat {A} (metric : ndarray -> ndarray -> result A)
    p res p1 :
  get_cross_val_metric metric p = (Ok res, p1) ->
  get_cross_val_metric metric p1 = (Ok res, p1).
Proof.
  intros Hfirst.
  destruct (_cross_val_res p) as [c|] eqn:Hc.
  - pose proof (get_cross_val_metric_cached metric _ Hc) as Hsame.
    rewrite Hfirst in Hsame. cbn [snd] in Hsame. subst p1. exact Hfirst.
  - unfold get_cross_val_metric, bind, ensure_cross_val in Hfirst.
    rewrite Hc in Hfirst.
    destruct (calc_cross_validation p) as [[[]|e] p2] eqn:Hcalc; [|discriminate].
    destruct (calc_cross_validation_ok _ Hcalc) as (g & q & p3 & Hframe & -> & _).
    cbn in Hfirst.
    assert (p1 = set_cross_val_res p3 (Some [g; q])) as Hp1.
    { unfold lift in Hfirst.
      now injection Hfirst as _ <-. }
    subst p1.
    unfold get_cross_val_metric, bind, ensure_cross_val. cbn.
    exact Hfirst.
Qed.

(** C3. A second [get_cross_val_metric] with no recomputation in between
    returns the per-fold (ground truth, prediction) pairs of the first one
    and leaves the object, and with it the classifier, exactly as the
    first call left it: no fit takes place. *)
Theorem cross_validation_idempotent p res p1 :
  get_cross_val_metric fold_itself p = (Ok res, p1) ->
  get_cross_val_metric fold_itself p1 = (Ok res, p1)
  /\ _cov_model (snd (get_cross_val_metric fold_itself p1)) = _cov_model p1.
Proof.
  intros Hfirst. apply get_cross_val_metric_repeat in Hfirst.
  split; [exact Hfirst|]. now rewrite Hfirst.
Qed.

(** C4, as the code has it. When the round of fold [i] raises after the
    rounds before it went through, [calc_cross_validation] raises the same
    exception and [_cross_val_res] is what it was before the call: the
    arrays collected for folds [0 .. i-1] are dropped with the method's
    local lists. *)
Theorem failed_fold_leaves_cache p K splits i train test g q p1 e p2 :
  TimeSeriesSplit_init (_cv_splits p) = Ok K ->
  TimeSeriesSplit_split K (length (_X p)) (arr_len (_y p)) = Ok splits ->
  nth_error splits i = Some (train, test) ->
  cv_loop (firstn i splits) [] [] p = (Ok (g, q), p1) ->
  cv_fold train test p1 = (Raise e, p2) ->
  calc_cross_validation p = (Raise e, p2)
  /\ _cross_val_res p2 = _cross_val_res p.
Proof.
  intros HK Hsplit Hnth Hbefore Hfold.
  pose proof (calc_cross_validation_abort _ _ HK Hsplit Hnth Hbefore Hfold) as Hcalc.
  split; [exact Hcalc|].
  apply calc_cross_validation_raise in Hcalc.
  now apply model_only_fields in Hcalc.
Qed.

(** C8. With fewer than two folds, or with too few samples for [K]
    non-empty test blocks (fewer than [K + 1]), the cross-validation
    raises the splitter's error before any fit, and the object is left as
    it was. *)
Theorem invalid_fold_count p :
  (_cv_splits p < 2)%Z
  \/ (length (_X p) = arr_len (_y p)
      /\ (Z.of_nat (length (_X p)) < _cv_splits p + 1)%Z) ->
  calc_cross_validation p = (Raise (ValueError InvalidFoldCount), p).
Proof.
  intros Hbad. unfold calc_cross_validation, bind, TimeSeriesSplit_init.
  destruct (Z.leb_spec (_cv_splits p) 1) as [|HK]; [reflexivity|].
  destruct Hbad as [|[Hlen Hn]]; [lia|].
  rewrite <- Hlen. now rewrite too_few_samples.
Qed.

(** Starting without a stored result, [plot_cross_validation_roc] never
    returns: either the cross-validation raises, or it stores its pair and
    the unpacking raises. *)
Lemma plot_cross_validation_roc_raises from_predictions p :
  _cross_val_res p = None ->
  exists e p', plot_cross_validation_roc from_predictions p = (Raise e, p')
    /\ (calc_cross_validation p = (Raise e, p')
        \/ (calc_cross_validation p = (Ok tt, p')
            /\ e = ValueError UnpackMismatch
            /\ exists g q, _cross_val_res p' = Some [g; q])).
Proof.
  intros Hnone. unfold plot_cross_validation_roc, bind, ensure_cross_val.
  rewrite Hnone.
  destruct (calc_cross_validation p) as [[[]|e] p1] eqn:Hcalc.
  - destruct (calc_cross_validation_ok _ Hcalc) as (g & q & p3 & Hframe & -> & _).
    exists (ValueError UnpackMismatch), (set_cross_val_res p3 (Some [g; q])).
    split; [reflexivity|]. right. repeat split. now exists g, q.
  - exists e, p1. split; [reflexivity|]. now left.
Qed.

(** ** Prediction by label dtype *)

Lemma column1_in_unit P v :
  Forall (Forall in_unit) (mrows P) -> column1 P = Ok v -> Forall in_unit v.
Proof.
  unfold column1. intros Hrows Hcol.
  destruct (2 <=? ncols P); [|discriminate].
  injection Hcol as <-.
  apply Forall_forall. intros x Hin.
  apply in_map_iff in Hin. destruct Hin as [r [<- Hr]].
  rewrite Forall_forall in Hrows. specialize (Hrows r Hr).
  destruct r as [|a [|b r]]; cbn [nth].
  - unfold in_unit. lra.
  - unfold in_unit. lra.
  - inversion Hrows as [|? ? _ Htl]. now inversion Htl.
Qed.

Lemma positive_class_probability_in_unit m X v :
  (forall m X P, predict_proba m X = Ok P -> Forall (Forall in_unit) (mrows P)) ->
  positive_class_probability m X = Ok v -> Forall in_unit v.
Proof.
  intros Hproba. unfold positive_class_probability.
  destruct (predict_proba m X) as [P|e] eqn:HP; [|discriminate].
  cbn [rbind]. apply column1_in_unit. eapply Hproba; eassumption.
Qed.

(** The prediction of one round is made on the rows of the test block by
    the classifier as the round's fit left it. *)
Lemma cv_fold_prediction train test p gt pr p' :
  cv_fold train test p = (Ok (gt, pr), p') ->
  exists X v,
    take (_X p) test = Ok X
    /\ pr = FloatArr v
    /\ (if _is_binary p
        then positive_class_probability (_cov_model p') X
        else predict (_cov_model p') X) = Ok v.
Proof.
  unfold cv_fold, bind. intros Hrun.
  destruct (fit_covariate_model (Some train) p) as [[[]|e] p1] eqn:Hfit; [|discriminate].
  apply fit_covariate_model_frame, model_only_fields in Hfit.
  destruct Hfit as (_ & _ & HX & _ & Hbin & _).
  destruct (arr_take (_y p1) test) as [gt'|e]; [|discriminate].
  unfold get_covariate_probability, ret in Hrun. rewrite HX, Hbin in Hrun.
  cbn [select] in Hrun.
  destruct (_is_binary p);
    (destruct (take (_X p) test) as [X|e]; [|discriminate]);
    cbn [rbind] in Hrun.
  - destruct (rbind (predict_proba (_cov_model p1) X) column1) as [v|e] eqn:Hv;
      [|discriminate].
    injection Hrun as _ <- <-. now exists X, v.
  - destruct (predict (_cov_model p1) X) as [v|e] eqn:Hv; [|discriminate].
    injection Hrun as _ <- <-. now exists X, v.
Qed.

(** C9. For boolean labels the three prediction operations (on stored
    rows, in a round of the cross-validation, on prepared new rows) return
    column 1 of [predict_proba], the probability of the positive class,
    and every value lies in [0,1] when the classifier's probabilities do;
    for any other dtype they return what [predict] returns. *)
Theorem prediction_follows_label_dtype p :
  (forall m X P, predict_proba m X = Ok P -> Forall (Forall in_unit) (mrows P)) ->
  _is_binary p = dtype_is_bool (_y p) ->
  (dtype_is_bool (_y p) = true ->
     (forall idxs,
         fst (get_covariate_probability idxs p)
         = rbind (select (_X p) idxs) (positive_class_probability (_cov_model p)))
     /\ (forall d,
         fst (predict_covariate_probability d p)
         = rbind (prepare_covariates (_data p) d)
                 (positive_class_probability (_cov_model p)))
     /\ (forall train test gt pr p',
         cv_fold train test p = (Ok (gt, pr), p') ->
         exists X v, take (_X p) test = Ok X /\ pr = FloatArr v
                     /\ positive_class_probability (_cov_model p') X = Ok v
                     /\ Forall in_unit v)
     /\ (forall idxs v,
         fst (get_covariate_probability idxs p) = Ok v -> Forall in_unit v)
     /\ (forall d v,
         fst (predict_covariate_probability d p) = Ok v -> Forall in_unit v))
  /\ (dtype_is_bool (_y p) = false ->
     (forall idxs,
         fst (get_covariate_probability idxs p)
         = rbind (select (_X p) idxs) (predict (_cov_model p)))
     /\ (forall d,
         fst (predict_covariate_probability d p)
         = rbind (prepare_covariates (_data p) d) (predict (_cov_model p)))
     /\ (forall train test gt pr p',
         cv_fold train test p = (Ok (gt, pr), p') ->
         exists X v, take (_X p) test = Ok X /\ pr = FloatArr v
                     /\ predict (_cov_model p') X = Ok v)).
Proof.
  intros Hproba Hmode.
  assert (forall d, fst (predict_covariate_probability d p)
                    = rbind (prepare_covariates (_data p) d)
                            (fun X => if _is_binary p
                                      then positive_class_probability (_cov_model p) X
                                      else predict (_cov_model p) X)) as Hnew.
  { intros d. unfold predict_covariate_probability, bind.
    destruct (prepare_covariates (_data p) d) as [X|e]; [|reflexivity].
    cbn [rbind fst]. now destruct (_is_binary p). }
  split; intros Hdtype; rewrite Hdtype in Hmode.
  - assert (forall idxs,
               fst (get_covariate_probability idxs p)
               = rbind (select (_X p) idxs)
                       (positive_class_probability (_cov_model p))) as Hget.
    { intros idxs. unfold get_covariate_probability. now rewrite Hmode. }
    assert (forall d,
               fst (predict_covariate_probability d p)
               = rbind (prepare_covariates (_data p) d)
                       (positive_class_probability (_cov_model p))) as Hprep.
    { intros d. rewrite Hnew, Hmode. reflexivity. }
    repeat split.
    + exact Hget.
    + exact Hprep.
    + intros train test gt pr p' Hfold.
      destruct (cv_fold_prediction _ _ _ Hfold) as (X & v & HX & Hpr & Hv).
      rewrite Hmode in Hv. exists X, v. repeat split; try assumption.
      eapply positive_class_probability_in_unit; eassumption.
    + intros idxs v Hv. rewrite Hget in Hv.
      destruct (select (_X p) idxs) as [X|e]; [|discriminate].
      eapply positive_class_probability_in_unit; eassumption.
    + intros d v Hv. rewrite Hprep in Hv.
      destruct (prepare_covariates (_data p) d) as [X|e]; [|discriminate].
      eapply positive_class_probability_in_unit; eassumption.
  - repeat split.
    + intros idxs. unfold get_covariate_probability. now rewrite Hmode.
    + intros d. rewrite Hnew, Hmode. reflexivity.
    + intros train test gt pr p' Hfold.
      destruct (cv_fold_prediction _ _ _ Hfold) as (X & v & HX & Hpr & Hv).
      rewrite Hmode in Hv. now exists X, v.
Qed.

(** ** Independence from the Data object *)














Lemma unpack2_pure p : snd (unpack2 p) = p.
Proof.
  unfold unpack2. destruct (_cross_val_res p) as [[|a [|b [|x c]]]|]; reflexivity.
Qed.

Lemma unpack3_pure p : snd (unpack3 p) = p.
Proof.
  unfold unpack3.
  destruct (_cross_val_res p) as [[|a [|b [|x [|z c]]]]|]; reflexivity.
Qed.






End PredictorFacts.

(** ** The methods on the small collaborators *)

Lemma toy_probabilities_in_unit (m : toy) (X : list nat) P :
  predict_proba m X = Ok P -> Forall (Forall in_unit) (mrows P).
Proof.
  cbn. intros HP. injection HP as <-. cbn [mrows].
  apply Forall_forall. intros r Hr.
  apply in_map_iff in Hr. destruct Hr as [x [<- _]].
  repeat constructor; unfold in_unit; lra.
Qed.

(** The splits that the library's documentation lists for six samples
    and the default five folds. *)
Example TimeSeriesSplit_six_samples :
  TimeSeriesSplit_split 5 6 6
  = Ok [([0], [1]); ([0; 1], [2]); ([0; 1; 2], [3]);
        ([0; 1; 2; 3], [4]); ([0; 1; 2; 3; 4], [5])]%nat.
Proof. vm_compute. reflexivity. Qed.

(** C2, as the code has it. For 100 samples and 5 folds the splitter
    yields 5 splits; every test block has 100 // 6 = 16 indices and the
    training sets have 20, 36, 52, 68 and 84. *)
Theorem split_100_into_5 :
  exists splits,
    TimeSeriesSplit_split 5 100 100 = Ok splits
    /\ length splits = 5%nat
    /\ map (fun s => length (snd s)) splits = [16; 16; 16; 16; 16]%nat
    /\ map (fun s => length (fst s)) splits = [20; 36; 52; 68; 84]%nat
    /\ map (fun s => hd 0%nat (snd s)) splits = [20; 36; 52; 68; 84]%nat.
Proof.
  eexists. split; [vm_compute; reflexivity|].
  repeat split; reflexivity.
Qed.

(** C2 as stated fails: the 5 test blocks do not have 20 indices each. *)
Lemma split_100_into_5_not_blocks_of_20 :
  ~ (exists splits,
        TimeSeriesSplit_split 5 100 100 = Ok splits
        /\ length splits = 5%nat
        /\ Forall (fun s => length (snd s) = 20%nat) splits
        /\ firstn 4 (map (fun s => length (fst s)) splits) = [20; 40; 60; 80]%nat).
Proof.
  intros (splits & Hsplit & _ & Hblocks & _).
  vm_compute in Hsplit. injection Hsplit as <-.
  inversion Hblocks as [|? ? H20 _]. vm_compute in H20. discriminate.
Qed.

(** The cross-validation runs over the splits of the splitter. *)
Lemma calc_cross_validation_splits {row df clf} `{Classifier row clf}
    (p : @Predictor row df clf) splits :
  (2 <= _cv_splits p)%Z ->
  TimeSeriesSplit_split (_cv_splits p) (length (_X p)) (arr_len (_y p)) = Ok splits ->
  calc_cross_validation p
  = match cv_loop splits [] [] p with
    | (Ok res, p1) => (Ok tt, set_cross_val_res p1 (Some [fst res; snd res]))
    | (Raise e, p1) => (Raise e, p1)
    end.
Proof.
  intros HK Hsplit. unfold calc_cross_validation, bind, TimeSeriesSplit_init.
  destruct (Z.leb_spec (_cv_splits p) 1); [lia|]. now rewrite Hsplit.
Qed.

(** Witness of C3 on three samples and two folds. *)
Lemma cross_validation_idempotent_witness :
  let first := get_cross_val_metric fold_itself small_predictor in
  fst first = Ok [(BoolArr [true], FloatArr [1 / 2]%R);
                  (BoolArr [false], FloatArr [1 / 2]%R)]
  /\ get_cross_val_metric fold_itself (snd first) = first.
Proof.
  split; [vm_compute; reflexivity|].
  apply (cross_validation_idempotent small_predictor).
  vm_compute. reflexivity.
Defined.

(** The two fits of the first call are the only ones: the second call
    finds the classifier fitted twice and leaves it so. *)
Example second_call_does_not_fit :
  let p1 := snd (get_cross_val_metric fold_itself small_predictor) in
  let p2 := snd (get_cross_val_metric fold_itself p1) in
  toy_fits (_cov_model small_predictor) = 0%nat
  /\ toy_fits (_cov_model p1) = 2%nat
  /\ toy_fits (_cov_model p2) = 2%nat.
Proof. vm_compute. repeat split. Qed.

(** Witness of C4: six samples, two folds, the fit of fold 1 raises. *)
Lemma failed_fold_leaves_cache_witness :
  let p1 := set_cov_model failing_predictor (Toy 1) in
  cv_fold [0; 1; 2; 3]%nat [4; 5]%nat p1 = (Raise (CollaboratorError 1), p1)
  /\ calc_cross_validation failing_predictor = (Raise (CollaboratorError 1), p1)
  /\ _cross_val_res p1 = _cross_val_res failing_predictor.
Proof.
  split; [vm_compute; reflexivity|].
  apply failed_fold_leaves_cache
    with (p := failing_predictor) (K := 2%Z)
         (splits := [([0; 1], [2; 3]); ([0; 1; 2; 3], [4; 5])]%nat)
         (i := 1%nat) (train := [0; 1; 2; 3]%nat) (test := [4; 5]%nat)
         (g := [BoolArr [false; true]]) (q := [FloatArr [1 / 2; 1 / 2]%R])
         (p1 := set_cov_model failing_predictor (Toy 1));
    vm_compute; reflexivity.
Defined.

(** C4 as stated fails: fold 0 went through and fold 1 raised, yet the
    stored result is still absent and holds no fold. *)
Lemma failed_fold_cache_not_partial :
  let run := calc_cross_validation failing_predictor in
  fst run = Raise (CollaboratorError 1)
  /\ fst (cv_fold [0; 1]%nat [2; 3]%nat failing_predictor)
     = Ok (BoolArr [false; true], FloatArr [1 / 2; 1 / 2]%R)
  /\ _cross_val_res (snd run) = None
  /\ cached_folds (snd run) <> [(BoolArr [false; true], FloatArr [1 / 2; 1 / 2]%R)].
Proof.
  repeat split; try (vm_compute; reflexivity).
  vm_compute. discriminate.
Qed.

(** Witness of C8: a single fold. *)
Lemma invalid_fold_count_witness :
  (_cv_splits single_fold_predictor < 2)%Z
  /\ calc_cross_validation single_fold_predictor
     = (Raise (ValueError InvalidFoldCount), single_fold_predictor).
Proof.
  split; [vm_compute; reflexivity|].
  apply invalid_fold_count. left. vm_compute. reflexivity.
Defined.

(** Two folds need three samples: with two the splitter raises as well. *)
Example two_samples_two_folds :
  calc_cross_validation (Predictor_init (toy_data (BoolArr [false; true]) 2) (Toy 0) 2)
  = (Raise (ValueError InvalidFoldCount),
     Predictor_init (toy_data (BoolArr [false; true]) 2) (Toy 0) 2).
Proof. vm_compute. reflexivity. Qed.

(** C1 on three samples and two folds: the cross-validation stores its
    pair of lists, and the ROC method raises when it unpacks three names
    from it; no curve is computed. *)
Theorem plot_roc_stops_at_unpacking :
  let p1 := snd (calc_cross_validation small_predictor) in
  _cross_val_res small_predictor = None
  /\ fst (calc_cross_validation small_predictor) = Ok tt
  /\ _cross_val_res p1
     = Some [[BoolArr [true]; BoolArr [false]];
             [FloatArr [1 / 2]%R; FloatArr [1 / 2]%R]]
  /\ plot_cross_validation_roc diagonal_roc small_predictor
     = (Raise (ValueError UnpackMismatch), p1).
Proof. vm_compute. repeat split. Qed.

(** Witness of C9 on boolean labels. *)
Lemma prediction_follows_label_dtype_witness :
  dtype_is_bool (_y small_predictor) = true
  /\ fst (get_covariate_probability SliceAll small_predictor)
     = Ok [1 / 2; 1 / 2; 1 / 2]%R
  /\ Forall in_unit [1 / 2; 1 / 2; 1 / 2]%R.
Proof.
  split; [reflexivity|]. split; [reflexivity|].
  destruct (prediction_follows_label_dtype
              small_predictor toy_probabilities_in_unit eq_refl) as [Hbool _].
  destruct (Hbool eq_refl) as (_ & _ & _ & Hunit & _).
  apply (Hunit SliceAll). reflexivity.
Defined.

(** With real-valued labels the same call returns what [predict] returns. *)
Example regression_prediction :
  fst (get_covariate_probability SliceAll regression_predictor) = Ok [0; 1; 2]%R
  /\ fst (get_residuals SliceAll regression_predictor)
     = Ok [0 - 3; 1 - 5; 2 - 8]%R.
Proof. split; reflexivity. Qed.


(** ** Means, deviations and interpolation *)

Open Scope R_scope.

Lemma nth_map_seq {A} (f : nat -> A) (n i : nat) (d : A) :
  (i < n)%nat -> nth i (map f (seq 0 n)) d = f i.
Proof.
  intros Hi. rewrite (nth_indep _ d (f 0%nat)) by now rewrite length_map, length_seq.
  rewrite map_nth, seq_nth by assumption. reflexivity.
Qed.

Lemma Rsum_zeros (l : list R) : Forall (fun v => v = 0) l -> Rsum l = 0.
Proof.
  induction 1 as [|v l Hv _ IH]; [reflexivity|].
  change (Rsum (v :: l)) with (v + Rsum l). rewrite Hv, IH. lra.
Qed.


Lemma mean_zeros (l : list R) : Forall (fun v => v = 0) l -> mean l = 0.
Proof. intros Hl. unfold mean. rewrite Rsum_zeros by assumption. lra. Qed.



(** An interpolated value lies between the two values it is taken from. *)
Lemma interp_segment_in_unit (x x0 x1 f0 f1 : R) :
  x0 <= x -> x < x1 -> in_unit f0 -> in_unit f1 ->
  in_unit (f0 + (f1 - f0) / (x1 - x0) * (x - x0)).
Proof.
  unfold in_unit. intros Hlo Hhi Hf0 Hf1.
  assert (0 < x1 - x0) as Hd by lra.
  set (t := (x - x0) / (x1 - x0)).
  assert (0 <= t < 1) as Ht.
  { unfold t. split.
    - apply Rmult_le_pos; [lra|]. left. now apply Rinv_0_lt_compat.
    - apply Rmult_lt_reg_r with (r := x1 - x0); [assumption|].
      unfold Rdiv. rewrite Rmult_assoc, Rinv_l by lra. lra. }
  replace ((f1 - f0) / (x1 - x0) * (x - x0)) with ((f1 - f0) * t)
    by (unfold t; field; lra).
  nra.
Qed.

Lemma interp_scan_in_unit (x : R) (pts : list (R * R)) : forall x0 f0,
  x0 <= x -> in_unit f0 -> Forall (fun pt => in_unit (snd pt)) pts ->
  in_unit (interp_scan x x0 f0 pts).
Proof.
  induction pts as [|[x1 f1] pts IH]; intros x0 f0 Hx0 Hf0 Hpts; cbn [interp_scan].
  - assumption.
  - inversion Hpts as [|? ? Hf1 Hrest]; subst. cbn [snd] in Hf1.
    destruct (Rle_dec x1 x) as [Hle|Hgt].
    + now apply IH.
    + apply interp_segment_in_unit; try assumption. lra.
Qed.

Lemma interp1_in_unit (x : R) (pts : list (R * R)) :
  Forall (fun pt => in_unit (snd pt)) pts -> in_unit (interp1 x pts).
Proof.
  intros Hpts. destruct pts as [|[x0 f0] pts]; cbn [interp1].
  - unfold in_unit. lra.
  - inversion Hpts as [|? ? Hf0 Hrest]; subst. cbn [snd] in Hf0.
    destruct (Rlt_dec x x0) as [Hlt|Hge]; [assumption|].
    apply interp_scan_in_unit; try assumption. lra.
Qed.

Lemma combine_snd_in_unit (xp fp : list R) :
  Forall in_unit fp -> Forall (fun pt => in_unit (snd pt)) (combine xp fp).
Proof.
  intros Hfp. apply Forall_forall. intros [a b] Hin.
  apply in_combine_r in Hin. rewrite Forall_forall in Hfp. now apply Hfp.
Qed.

Lemma interp_length (xs xp fp ys : list R) :
  interp xs xp fp = Ok ys -> length ys = length xs.
Proof.
  unfold interp. destruct xp as [|x0 xp]; [discriminate|].
  destruct (length (x0 :: xp) =? length fp); [|discriminate].
  intros Hys. injection Hys as <-. apply length_map.
Qed.

Lemma interp_in_unit (xs xp fp ys : list R) :
  Forall in_unit fp -> interp xs xp fp = Ok ys -> Forall in_unit ys.
Proof.
  unfold interp. intros Hfp. destruct xp as [|x0 xp]; [discriminate|].
  destruct (length (x0 :: xp) =? length fp); [|discriminate].
  intros Hys. injection Hys as <-.
  apply Forall_forall. intros y Hy. apply in_map_iff in Hy.
  destruct Hy as [x [<- _]]. apply interp1_in_unit.
  exact (combine_snd_in_unit (x0 :: xp) Hfp).
Qed.

Lemma interp_ok (xs xp fp : list R) :
  xp <> [] -> length xp = length fp -> exists ys, interp xs xp fp = Ok ys.
Proof.
  intros Hne Hlen. unfold interp. destruct xp as [|x0 xp]; [contradiction|].
  rewrite Hlen, Nat.eqb_refl. eexists. reflexivity.
Qed.

(** ** Item assignment *)

Lemma set_first_ok (v : R) (a b : list R) :
  set_first v a = Ok b -> length b = length a /\ nth 0 b 0 = v
                          /\ forall i, nth (S i) b 0 = nth (S i) a 0.
Proof.
  destruct a as [|x a]; [discriminate|]. intros Hb. injection Hb as <-.
  repeat split.
Qed.

Lemma set_last_ok (v : R) (a b : list R) :
  set_last v a = Ok b ->
  length b = length a
  /\ last b 0 = v
  /\ nth (length a - 1) b 0 = v
  /\ forall i, (i < length a - 1)%nat -> nth i b 0 = nth i a 0.
Proof.
  intros Hb.
  assert (a <> [] /\ b = removelast a ++ [v]) as [Hne ->].
  { destruct a; [discriminate|]. injection Hb as <-. split; [discriminate|reflexivity]. }
  assert (length (removelast a) = (length a - 1)%nat) as Hlen.
  { rewrite removelast_firstn_len, length_firstn. lia. }
  assert (0 < length a)%nat by (destruct a; [contradiction|cbn; lia]).
  repeat split.
  - rewrite length_app, Hlen. cbn. lia.
  - apply last_last.
  - rewrite app_nth2 by lia. rewrite Hlen, Nat.sub_diag. reflexivity.
  - intros i Hi. rewrite app_nth1 by lia.
    rewrite removelast_firstn_len, nth_firstn.
    destruct (Nat.ltb_spec i (Init.Nat.pred (length a))); [reflexivity|lia].
Qed.

Lemma set_last_returns (v : R) (a : list R) :
  a <> [] -> exists b, set_last v a = Ok b.
Proof. destruct a; [contradiction|]. intros _. eexists. reflexivity. Qed.

(** ** The grid and the area *)

Lemma linspace01_length (n : nat) : length (linspace01 n) = n.
Proof. unfold linspace01. now rewrite length_map, length_seq. Qed.

Lemma diff_of_steps (c : R) (n : nat) : forall a,
  0 < c -> Forall (fun d => 0 <= d) (diff (map (fun i => INR i / c) (seq a n))).
Proof.
  induction n as [|n IH]; intros a Hc; [constructor|].
  destruct n as [|n]; [constructor|].
  specialize (IH (S a) Hc).
  change (diff (map (fun i => INR i / c) (seq a (S (S n)))))
    with ((INR (S a) / c - INR a / c)
          :: diff (map (fun i => INR i / c) (seq (S a) (S n)))).
  constructor; [|exact IH].
  rewrite S_INR. unfold Rdiv.
  assert (0 < / c) by now apply Rinv_0_lt_compat.
  nra.
Qed.

Lemma linspace01_increasing (n : nat) :
  (2 <= n)%nat -> Forall (fun d => 0 <= d) (diff (linspace01 n)).
Proof.
  intros Hn. apply diff_of_steps.
  apply lt_0_INR. lia.
Qed.

(** On an increasing abscissa [auc] is the plain trapezoid rule. *)
Lemma auc_increasing (x y : list R) :
  length x = length y -> (2 <= length x)%nat ->
  Forall (fun d => 0 <= d) (diff x) ->
  auc x y = Ok (1 * trapz y x).
Proof.
  intros Hlen Hx Hinc. unfold auc.
  rewrite Hlen, Nat.eqb_refl. cbn [negb].
  destruct (Nat.ltb_spec (length y) 2); [lia|].
  assert (existsb (fun d => Rltb d 0) (diff x) = false) as ->; [|reflexivity].
  induction Hinc as [|d ds Hd _ IH]; [reflexivity|].
  cbn [existsb]. rewrite IH. unfold Rltb.
  destruct (Rlt_dec d 0); [lra|reflexivity].
Qed.

(** [np.trapz] adds up the trapezoids over the intervals. *)
Lemma trapz_as_sum (x : list R) : forall y,
  length x = length y -> trapz y x = trapezoid_area x y.
Proof.
  unfold trapezoid_area.
  induction x as [|x0 x IH]; intros y Hlen.
  - destruct y; [reflexivity|discriminate].
  - destruct y as [|y0 y]; [discriminate|].
    destruct x as [|x1 x]; [reflexivity|].
    destruct y as [|y1 y]; [discriminate|].
    change (trapz (y0 :: y1 :: y) (x0 :: x1 :: x))
      with ((x1 - x0) * (y0 + y1) / 2 + trapz (y1 :: y) (x1 :: x)).
    rewrite (IH (y1 :: y)) by (cbn in *; lia).
    replace (length (x0 :: x1 :: x) - 1)%nat with (S (length (x1 :: x) - 1))
      by (cbn; lia).
    rewrite <- cons_seq, <- seq_shift, map_cons, map_map.
    reflexivity.
Qed.

(** ** Loops that may raise *)

Lemma mapR_length {A B} (f : A -> result B) (l : list A) : forall bs,
  mapR f l = Ok bs -> length bs = length l.
Proof.
  induction l as [|a l IH]; intros bs Hbs; cbn [mapR] in Hbs.
  - now injection Hbs as <-.
  - destruct (f a) as [b|e]; [|discriminate]. cbn [rbind] in Hbs.
    destruct (mapR f l) as [bs'|e]; [|discriminate]. cbn [rbind] in Hbs.
    injection Hbs as <-. cbn. now rewrite (IH bs').
Qed.

Lemma mapR_Forall {A B} (f : A -> result B) (P : B -> Prop) (l : list A) :
  (forall a b, f a = Ok b -> P b) ->
  forall bs, mapR f l = Ok bs -> Forall P bs.
Proof.
  intros Hf. induction l as [|a l IH]; intros bs Hbs; cbn [mapR] in Hbs.
  - injection Hbs as <-. constructor.
  - destruct (f a) as [b|e] eqn:Hb; [|discriminate]. cbn [rbind] in Hbs.
    destruct (mapR f l) as [bs'|e]; [|discriminate]. cbn [rbind] in Hbs.
    injection Hbs as <-. constructor; [eapply Hf; eassumption|now apply IH].
Qed.

Lemma mapR_map {A B C} (f : A -> result B) (f' : A -> result C) (h : B -> C)
    (l : list A) :
  (forall a b, f a = Ok b -> f' a = Ok (h b)) ->
  forall bs, mapR f l = Ok bs -> mapR f' l = Ok (map h bs).
Proof.
  intros Hf. induction l as [|a l IH]; intros bs Hbs; cbn [mapR] in *.
  - now injection Hbs as <-.
  - destruct (f a) as [b|e] eqn:Hb; [|discriminate]. cbn [rbind] in Hbs.
    destruct (mapR f l) as [bs'|e]; [|discriminate]. cbn [rbind] in Hbs.
    injection Hbs as <-. rewrite (Hf _ _ Hb). cbn [rbind].
    rewrite (IH bs' eq_refl). reflexivity.
Qed.

Lemma mapR_returns {A B} (f : A -> result B) (l : list A) :
  Forall (fun a => exists b, f a = Ok b) l -> exists bs, mapR f l = Ok bs.
Proof.
  induction 1 as [|a l [b Hb] _ [bs Hbs]]; cbn [mapR].
  - now exists [].
  - rewrite Hb, Hbs. now exists (b :: bs).
Qed.

Lemma zip_with_length (f : R -> R -> R) (a : list R) : forall b,
  length a = length b -> length (zip_with f a b) = length a.
Proof.
  induction a as [|x a IH]; intros [|y b] Hlen; try discriminate; cbn.
  - reflexivity.
  - rewrite IH; [reflexivity|]. now injection Hlen.
Qed.

Lemma zip_with_nth (f : R -> R -> R) (a : list R) : forall b i,
  length a = length b -> (i < length a)%nat ->
  nth i (zip_with f a b) 0 = f (nth i a 0) (nth i b 0).
Proof.
  induction a as [|x a IH]; intros [|y b] i Hlen Hi; try discriminate;
    cbn in Hi; [lia|].
  destruct i as [|i]; cbn; [reflexivity|].
  apply IH; [now injection Hlen|lia].
Qed.

Lemma nth_map_in_range (f : R -> R) (a : list R) (i : nat) :
  (i < length a)%nat -> nth i (map f a) 0 = f (nth i a 0).
Proof.
  intros Hi. rewrite (nth_indep _ 0 (f 0)) by now rewrite length_map.
  apply map_nth.
Qed.

(** ** The ROC aggregation *)

Section RocFacts.

Variable from_predictions : ndarray -> ndarray -> result RocCurveDisplay.

(** One round gives a curve on the grid that starts at 0, and the area of
    the fold's own curve. *)
Lemma roc_fold_ok (grid : list R) g q fold t a :
  roc_fold from_predictions grid g q fold = Ok (t, a) ->
  length t = length grid
  /\ nth 0 t 0 = 0
  /\ fold_auc from_predictions g q fold = Ok a
  /\ ((forall y s viz, from_predictions y s = Ok viz -> Forall in_unit (tpr viz)) ->
      Forall in_unit t).
Proof.
  unfold roc_fold, fold_auc. intros Hfold.
  destruct (item g fold) as [y|e]; [|discriminate]. cbn [rbind] in *.
  destruct (item q fold) as [s|e]; [|discriminate]. cbn [rbind] in *.
  destruct (from_predictions y s) as [viz|e] eqn:Hviz; [|discriminate].
  cbn [rbind] in *.
  destruct (interp grid (fpr viz) (tpr viz)) as [ys|e] eqn:Hys; [|discriminate].
  cbn [rbind] in Hfold.
  destruct (set_first 0 ys) as [zs|e] eqn:Hzs; [|discriminate].
  cbn [rbind] in Hfold. injection Hfold as <- <-.
  pose proof (interp_length _ _ _ Hys) as Hlen.
  destruct (set_first_ok _ _ Hzs) as (Hlen' & Hfirst & _).
  repeat split; try congruence.
  intros Hunit. specialize (Hunit _ _ _ Hviz).
  pose proof (interp_in_unit _ _ Hunit Hys) as Hys_unit.
  destruct ys as [|y0 ys]; [discriminate|]. injection Hzs as <-.
  inversion Hys_unit; subst. constructor; [unfold in_unit; lra|assumption].
Qed.

Lemma roc_summary_ok (grid : list R) tprs aucs agg :
  roc_summary grid tprs aucs = Ok agg ->
  tprs <> []
  /\ mean_fpr agg = grid
  /\ set_last 1 (mean_axis0 (length grid) tprs) = Ok (mean_tpr agg)
  /\ auc grid (mean_tpr agg) = Ok (mean_auc agg)
  /\ std_auc agg = std aucs
  /\ std_tpr agg = std_axis0 (length grid) tprs
  /\ tprs_upper agg
     = map (fun v => Rmin v 1) (zip_with Rplus (mean_tpr agg) (std_tpr agg))
  /\ tprs_lower agg
     = map (fun v => Rmax v 0) (zip_with Rminus (mean_tpr agg) (std_tpr agg)).
Proof.
  unfold roc_summary. intros Hagg.
  destruct tprs as [|t tprs]; [discriminate|].
  destruct (set_last 1 (mean_axis0 (length grid) (t :: tprs))) as [m|e];
    [|discriminate]. cbn [rbind] in Hagg.
  destruct (auc grid m) as [area|e] eqn:Harea; [|discriminate].
  cbn [rbind] in Hagg. injection Hagg as <-. cbn.
  repeat split; try assumption; discriminate.
Qed.

(** What a completed aggregation is made of. *)
Lemma roc_aggregate_ok K g q agg :
  roc_aggregate from_predictions K g q = Ok agg ->
  exists folds,
    mapR (roc_fold from_predictions (linspace01 100) g q) (range K) = Ok folds
    /\ roc_summary (linspace01 100) (map fst folds) (map snd folds) = Ok agg
    /\ folds <> []
    /\ Forall (fun f => length (fst f) = 100%nat /\ nth 0 (fst f) 0 = 0) folds
    /\ mapR (fold_auc from_predictions g q) (range K) = Ok (map snd folds).
Proof.
  unfold roc_aggregate. intros Hagg.
  destruct (mapR (roc_fold from_predictions (linspace01 100) g q) (range K))
    as [folds|e] eqn:Hfolds; [|discriminate].
  cbn [rbind] in Hagg. exists folds. repeat split; try assumption.
  - apply roc_summary_ok in Hagg. destruct Hagg as [Hne _].
    intros ->. now apply Hne.
  - eapply mapR_Forall; [|exact Hfolds]. intros fold [t a] Hfold.
    apply roc_fold_ok in Hfold. destruct Hfold as (Hlen & Hfirst & _).
    rewrite linspace01_length in Hlen. cbn [fst]. now split.
  - eapply mapR_map; [|exact Hfolds]. intros fold [t a] Hfold.
    now apply roc_fold_ok in Hfold.
Qed.

Lemma mean_axis0_length (n : nat) rows : length (mean_axis0 n rows) = n.
Proof. unfold mean_axis0. now rewrite length_map, length_seq. Qed.

Lemma std_axis0_length (n : nat) rows : length (std_axis0 n rows) = n.
Proof. unfold std_axis0. now rewrite length_map, length_seq. Qed.

Lemma mean_tpr_pinned_shape K g q agg :
  roc_aggregate from_predictions K g q = Ok agg ->
  length (mean_tpr agg) = 100%nat /\ last (mean_tpr agg) 0 = 1.
Proof.
  intros Hagg.
  destruct (roc_aggregate_ok _ _ _ Hagg) as (folds & _ & Hsum & _).
  apply roc_summary_ok in Hsum.
  destruct Hsum as (_ & _ & Hmean & _). rewrite linspace01_length in Hmean.
  destruct (set_last_ok _ _ Hmean) as (Hlen & Hlast & _).
  rewrite mean_axis0_length in Hlen. now split.
Qed.

(** C5. In every completed aggregation the mean curve has 100 points, its
    first is 0 and its last is 1: every fold's interpolated curve got 0 as
    its first value before the mean was taken, and the mean's last value
    was replaced by 1 afterwards. *)
Theorem mean_tpr_pinned K g q agg :
  roc_aggregate from_predictions K g q = Ok agg ->
  length (mean_tpr agg) = 100%nat
  /\ nth 0 (mean_tpr agg) 0 = 0
  /\ nth 99 (mean_tpr agg) 0 = 1
  /\ last (mean_tpr agg) 0 = 1
  /\ exists folds,
       mapR (roc_fold from_predictions (linspace01 100) g q) (range K) = Ok folds
       /\ Forall (fun f => nth 0 (fst f) 0 = 0) folds
       /\ set_last 1 (mean_axis0 100 (map fst folds)) = Ok (mean_tpr agg).
Proof.
  intros Hagg.
  destruct (roc_aggregate_ok _ _ _ Hagg) as (folds & Hfolds & Hsum & _ & Hshape & _).
  apply roc_summary_ok in Hsum.
  destruct Hsum as (_ & _ & Hmean & _). rewrite linspace01_length in Hmean.
  destruct (set_last_ok _ _ Hmean) as (Hlen & Hlast & Hend & Hkeep).
  rewrite mean_axis0_length in Hlen, Hend, Hkeep.
  assert (Forall (fun f : list R * R => nth 0 (fst f) 0 = 0) folds) as Hzero.
  { eapply Forall_impl; [|exact Hshape]. now intros f [_ Hf]. }
  repeat split; try assumption.
  - rewrite (Hkeep 0%nat) by lia. unfold mean_axis0.
    rewrite nth_map_seq by lia. apply mean_zeros.
    unfold column. rewrite map_map. apply Forall_map. exact Hzero.
  - now exists folds.
Qed.


(** C7. In every completed aggregation the mean area is the trapezoidal
    area under the grid and the mean curve whose last value is already 1,
    and the deviation of the area is the deviation of the folds' own
    areas. *)
Theorem auc_summary K g q agg :
  roc_aggregate from_predictions K g q = Ok agg ->
  mean_fpr agg = linspace01 100
  /\ mean_auc agg = trapezoid_area (mean_fpr agg) (mean_tpr agg)
  /\ exists folds,
       mapR (roc_fold from_predictions (linspace01 100) g q) (range K) = Ok folds
       /\ set_last 1 (mean_axis0 100 (map fst folds)) = Ok (mean_tpr agg)
       /\ mapR (fold_auc from_predictions g q) (range K) = Ok (map snd folds)
       /\ length folds = Z.to_nat K
       /\ std_auc agg = std (map snd folds).
Proof.
  intros Hagg.
  destruct (mean_tpr_pinned_shape _ _ _ Hagg) as (Hlen & _).
  destruct (roc_aggregate_ok _ _ _ Hagg) as (folds & Hfolds & Hsum & _ & _ & Haucs).
  apply roc_summary_ok in Hsum.
  destruct Hsum as (_ & Hgrid & Hmean & Harea & Hstd & _).
  rewrite linspace01_length in Hmean.
  split; [exact Hgrid|]. split.
  - rewrite auc_increasing in Harea.
    + injection Harea as <-. rewrite Hgrid, Rmult_1_l.
      apply trapz_as_sum. now rewrite linspace01_length.
    + now rewrite linspace01_length.
    + rewrite linspace01_length. lia.
    + apply linspace01_increasing. lia.
  - exists folds. repeat split; try assumption.
    apply mapR_length in Hfolds. rewrite Hfolds. apply length_seq.
Qed.

(** The aggregation returns whenever there is at least one fold, the lists
    hold an array for every fold and the ROC routine returns curves with
    as many rates of one kind as of the other. *)
Lemma roc_aggregate_returns K g q :
  (1 <= K)%Z ->
  (Z.to_nat K <= length g)%nat -> (Z.to_nat K <= length q)%nat ->
  (forall y s, exists viz, from_predictions y s = Ok viz
                           /\ fpr viz <> [] /\ length (fpr viz) = length (tpr viz)) ->
  exists agg, roc_aggregate from_predictions K g q = Ok agg.
Proof.
  intros HK Hg Hq Hroc. unfold roc_aggregate.
  assert (exists folds,
             mapR (roc_fold from_predictions (linspace01 100) g q) (range K)
             = Ok folds) as [folds Hfolds].
  { apply mapR_returns. apply Forall_forall. intros fold Hin. apply in_seq in Hin.
    unfold roc_fold, item.
    destruct (nth_error g fold) as [y|] eqn:Hy;
      [|apply nth_error_None in Hy; lia].
    destruct (nth_error q fold) as [s|] eqn:Hs;
      [|apply nth_error_None in Hs; lia].
    cbn [rbind]. destruct (Hroc y s) as (viz & -> & Hne & Hlen). cbn [rbind].
    destruct (@interp_ok (linspace01 100) _ _ Hne Hlen) as [ys Hys]. rewrite Hys.
    cbn [rbind]. apply interp_length in Hys. rewrite linspace01_length in Hys.
    destruct ys as [|y0 ys]; [discriminate|]. eexists. reflexivity. }
  rewrite Hfolds. cbn [rbind].
  pose proof (mapR_length _ _ Hfolds) as Hlen. unfold range in Hlen.
  rewrite length_seq in Hlen.
  assert (Forall (fun f : list R * R => length (fst f) = 100%nat) folds) as Hshape.
  { eapply mapR_Forall; [|exact Hfolds]. intros fold [t a] Hfold.
    apply roc_fold_ok in Hfold. destruct Hfold as (Ht & _).
    now rewrite linspace01_length in Ht. }
  unfold roc_summary.
  destruct folds as [|f folds]; [cbn in Hlen; lia|]. cbn [map].
  rewrite linspace01_length.
  destruct (set_last_returns 1 (a := mean_axis0 100 (fst f :: map fst folds)))
    as [m Hm].
  { intros Hnil. apply (f_equal (@length R)) in Hnil.
    rewrite mean_axis0_length in Hnil. discriminate. }
  rewrite Hm. cbn [rbind].
  destruct (set_last_ok _ _ Hm) as (Hlen_m & _). rewrite mean_axis0_length in Hlen_m.
  rewrite auc_increasing.
  - cbn [rbind]. eexists. reflexivity.
  - now rewrite linspace01_length.
  - rewrite linspace01_length. lia.
  - apply linspace01_increasing. lia.
Qed.

End RocFacts.

(** With three lists stored, [plot_cross_validation_roc] is the
    aggregation of the first two. *)
Lemma plot_cross_validation_roc_stored {row df clf} `{Classifier row clf}
    from_predictions (p : @Predictor row df clf) a b c :
  _cross_val_res p = Some [a; b; c] ->
  plot_cross_validation_roc from_predictions p
  = (roc_aggregate from_predictions (_cv_splits p) a b, p).
Proof.
  intros Hc. unfold plot_cross_validation_roc, bind, ensure_cross_val.
  rewrite Hc. unfold unpack3. rewrite Hc. reflexivity.
Qed.

(** ** The aggregation on the diagonal curve *)

Lemma diagonal_roc_shape y s :
  exists viz, diagonal_roc y s = Ok viz
              /\ fpr viz <> [] /\ length (fpr viz) = length (tpr viz).
Proof. eexists. split; [reflexivity|]. split; [discriminate|reflexivity]. Qed.


Lemma diagonal_aggregate_returns :
  exists agg,
    roc_aggregate diagonal_roc 2
      [BoolArr [true; false]; BoolArr [false; true]]
      [FloatArr [1 / 2; 1 / 2]; FloatArr [1 / 2; 1 / 2]] = Ok agg.
Proof.
  apply roc_aggregate_returns; try (cbn; lia). apply diagonal_roc_shape.
Qed.

(** Witness of C5: two folds with the diagonal as their curve. *)
Lemma mean_tpr_pinned_witness :
  exists agg,
    roc_aggregate diagonal_roc 2
      [BoolArr [true; false]; BoolArr [false; true]]
      [FloatArr [1 / 2; 1 / 2]; FloatArr [1 / 2; 1 / 2]] = Ok agg
    /\ nth 0 (mean_tpr agg) 0 = 0
    /\ last (mean_tpr agg) 0 = 1.
Proof.
  destruct diagonal_aggregate_returns as [agg Hagg]. exists agg.
  split; [exact Hagg|].
  destruct (@mean_tpr_pinned diagonal_roc _ _ _ _ Hagg)
    as (_ & Hfirst & _ & Hlast & _).
  now split.
Defined.


(** Witness of C7. *)
Lemma auc_summary_witness :
  exists agg,
    roc_aggregate diagonal_roc 2
      [BoolArr [true; false]; BoolArr [false; true]]
      [FloatArr [1 / 2; 1 / 2]; FloatArr [1 / 2; 1 / 2]] = Ok agg
    /\ mean_auc agg = trapezoid_area (mean_fpr agg) (mean_tpr agg)
    /\ std_auc agg = std [1 / 2; 1 / 2].
Proof.
  destruct diagonal_aggregate_returns as [agg Hagg]. exists agg.
  split; [exact Hagg|].
  destruct (@auc_summary diagonal_roc _ _ _ _ Hagg)
    as (_ & Harea & folds & _ & _ & Haucs & _ & Hstd).
  split; [exact Harea|].
  cbn in Haucs. injection Haucs as Haucs. rewrite Hstd, <- Haucs. reflexivity.
Defined.

Close Scope R_scope.

(** * Further properties of the methods *)

(** ** Index arrays *)

Lemma skipn_nth_error {A} (l : list A) : forall a x,
  nth_error l a = Some x -> skipn a l = x :: skipn (S a) l.
Proof.
  induction l as [|y l IH]; intros [|a] x Hx; try discriminate.
  - now injection Hx as ->.
  - cbn [nth_error] in Hx. cbn [skipn]. apply (IH a x Hx).
Qed.

(** A run of indices inside the array selects the slice it covers. *)
Lemma take_seq {A} (l : list A) (n : nat) : forall a,
  (a + n <= length l)%nat -> take l (seq a n) = Ok (firstn n (skipn a l)).
Proof.
  unfold take. induction n as [|n IH]; intros a Ha; [reflexivity|].
  cbn [seq mapR].
  destruct (nth_error l a) as [x|] eqn:Hx;
    [|apply nth_error_None in Hx; lia].
  cbn [rbind]. rewrite IH by lia. cbn [rbind].
  now rewrite (skipn_nth_error _ _ Hx).
Qed.

Lemma take_all {A} (l : list A) : take l (seq 0 (length l)) = Ok l.
Proof. rewrite take_seq by lia. cbn [skipn]. now rewrite firstn_all. Qed.

Lemma arr_take_all (a : ndarray) : arr_take a (seq 0 (arr_len a)) = Ok a.
Proof. destruct a as [l|l]; cbn [arr_take arr_len]; now rewrite take_all. Qed.

Lemma arr_take_seq_len (y : ndarray) (a n : nat) :
  (a + n <= arr_len y)%nat ->
  exists b, arr_take y (seq a n) = Ok b /\ arr_len b = n
            /\ dtype_is_bool b = dtype_is_bool y.
Proof.
  intros Ha. destruct y as [l|l]; cbn [arr_take arr_len] in *;
    rewrite take_seq by assumption; cbn [rbind]; eexists;
    (split; [reflexivity|]); cbn [arr_len dtype_is_bool];
    (split; [|reflexivity]); rewrite length_firstn, length_skipn; lia.
Qed.

(** One index beyond the end is enough for [IndexError]. *)
Lemma take_out_of_range {A} (l : list A) (idxs : list nat) (i : nat) :
  In i idxs -> (length l <= i)%nat -> take l idxs = Raise IndexError.
Proof.
  unfold take. intros Hin Hi.
  induction idxs as [|j idxs IH]; [contradiction|]. cbn [mapR].
  destruct (nth_error l j) as [x|] eqn:Hx; [|reflexivity]. cbn [rbind].
  destruct Hin as [->|Hin].
  - apply nth_error_None in Hi. congruence.
  - rewrite (IH Hin). reflexivity.
Qed.

Section MethodFacts.

Context {row df clf : Type} `{Classifier row clf}.

Implicit Types p : @Predictor row df clf.

(** X1. Asking for all rows by their indices is asking for all rows: with
    as many labels as rows, fitting on [0 .. N-1] is fitting without an
    index array, and predicting or taking residuals on [0 .. N-1] is
    doing so with the default slice. *)
Theorem all_indices_is_no_index p :
  arr_len (_y p) = length (_X p) ->
  fit_covariate_model (Some (seq 0 (length (_X p)))) p = fit_covariate_model None p
  /\ get_covariate_probability (Idxs (seq 0 (length (_X p)))) p
     = get_covariate_probability SliceAll p
  /\ get_residuals (Idxs (seq 0 (length (_X p)))) p = get_residuals SliceAll p.
Proof.
  intros Hlen.
  assert (get_covariate_probability (Idxs (seq 0 (length (_X p)))) p
          = get_covariate_probability SliceAll p) as Hget.
  { unfold get_covariate_probability. cbn [select]. now rewrite take_all. }
  repeat split.
  - unfold fit_covariate_model, bind. rewrite take_all.
    rewrite <- Hlen, arr_take_all. reflexivity.
  - exact Hget.
  - unfold get_residuals, bind. rewrite Hget.
    destruct (get_covariate_probability SliceAll p) as [[prob|e] p1] eqn:Hprob;
      [|reflexivity].
    assert (p1 = p) as ->
        by (now rewrite <- (get_covariate_probability_pure SliceAll p), Hprob).
    cbn [arr_select]. now rewrite <- Hlen, arr_take_all.
Qed.

(** X2. An index beyond the last row makes [fit_covariate_model] and
    [get_covariate_probability] raise [IndexError] before the classifier
    is called: the object is left as it was. *)
Theorem index_beyond_rows_raises p idxs i :
  In i idxs -> (length (_X p) <= i)%nat ->
  fit_covariate_model (Some idxs) p = (Raise IndexError, p)
  /\ get_covariate_probability (Idxs idxs) p = (Raise IndexError, p)
  /\ get_residuals (Idxs idxs) p = (Raise IndexError, p).
Proof.
  intros Hin Hi.
  assert (get_covariate_probability (Idxs idxs) p = (Raise IndexError, p)) as Hget.
  { unfold get_covariate_probability. cbn [select].
    rewrite (take_out_of_range _ _ Hin Hi). now destruct (_is_binary p). }
  repeat split.
  - unfold fit_covariate_model, bind. now rewrite (take_out_of_range _ _ Hin Hi).
  - exact Hget.
  - unfold get_residuals, bind. now rewrite Hget.
Qed.

Lemma np_subtract_in_sym_unit (a b r : list R) :
  Forall in_unit a -> Forall in_unit b -> np_subtract a b = Ok r ->
  Forall in_sym_unit r.
Proof.
  intros Ha Hb. unfold np_subtract.
  assert (forall x y, in_unit x -> in_unit y -> in_sym_unit (x - y)%R) as Hsub
      by (unfold in_unit, in_sym_unit; intros; lra).
  destruct (length a =? length b).
  - intros Hr. injection Hr as <-. clear -Ha Hb Hsub.
    revert b Hb. induction Ha as [|x a Hx _ IH]; intros b Hb; [constructor|].
    destruct Hb as [|y b Hy Hb]; [constructor|]. cbn [zip_with].
    constructor; [now apply Hsub|now apply IH].
  - destruct (length a =? 1) eqn:Ha1.
    + intros Hr. injection Hr as <-. apply Forall_map.
      destruct Ha as [|x a Hx _]; [discriminate|]. cbn [hd].
      eapply Forall_impl; [|exact Hb]. intros y Hy. now apply Hsub.
    + destruct (length b =? 1); [|discriminate].
      intros Hr. injection Hr as <-. apply Forall_map.
      destruct Hb as [|y b Hy _].
      * cbn [hd]. eapply Forall_impl; [|exact Ha]. intros x Hx.
        apply Hsub; [assumption|unfold in_unit; lra].
      * cbn [hd]. eapply Forall_impl; [|exact Ha]. intros x Hx. now apply Hsub.
Qed.

Lemma as_float_bool_in_unit (l : list bool) : Forall in_unit (as_float (BoolArr l)).
Proof.
  cbn [as_float]. apply Forall_map. apply Forall_forall. intros [|] _;
    unfold in_unit, bool_to_R; lra.
Qed.

(** X3. With boolean labels and a classifier whose probabilities lie in
    [0,1], every residual that [get_residuals] returns lies in [-1,1]. *)
Theorem residuals_in_sym_unit p idxs r p' :
  (forall m X P, predict_proba m X = Ok P -> Forall (Forall in_unit) (mrows P)) ->
  _is_binary p = true -> dtype_is_bool (_y p) = true ->
  get_residuals idxs p = (Ok r, p') ->
  Forall in_sym_unit r.
Proof.
  intros Hproba Hbin Hdtype. unfold get_residuals, bind, lift.
  destruct (get_covariate_probability idxs p) as [[prob|e] p1] eqn:Hprob;
    [|discriminate].
  assert (p1 = p) as ->
      by (now rewrite <- (get_covariate_probability_pure idxs p), Hprob).
  assert (Forall in_unit prob) as Hunit.
  { unfold get_covariate_probability in Hprob. rewrite Hbin in Hprob.
    injection Hprob as Hprob.
    destruct (select (_X p) idxs) as [X|e]; [|discriminate].
    eapply positive_class_probability_in_unit; eassumption. }
  destruct (arr_select (_y p) idxs) as [y|e] eqn:Hy; [|discriminate].
  intros Hr. injection Hr as Hr _.
  eapply np_subtract_in_sym_unit; [exact Hunit| |exact Hr].
  assert (exists l, y = BoolArr l) as [l ->].
  { destruct (_y p) as [l0|l0]; [|discriminate].
    destruct idxs as [|ix]; cbn [arr_select arr_take] in Hy.
    - injection Hy as <-. now exists l0.
    - destruct (take l0 ix) as [l|e]; [|discriminate]. injection Hy as <-.
      now exists l. }
  apply as_float_bool_in_unit.
Qed.

(** ** The stored result *)

Lemma cache_wf_model_only p p' : model_only p p' -> cache_wf p -> cache_wf p'.
Proof.
  intros Hframe Hwf. apply model_only_fields in Hframe.
  destruct Hframe as (_ & HK & _ & _ & _ & Hc).
  unfold cache_wf in *. now rewrite HK, Hc.
Qed.

Lemma predict_covariate_probability_pure (d : df) p :
  snd (predict_covariate_probability d p) = p.
Proof.
  unfold predict_covariate_probability, bind.
  now destruct (prepare_covariates (_data p) d).
Qed.

Lemma get_residuals_pure idxs p : snd (get_residuals idxs p) = p.
Proof.
  unfold get_residuals, bind, lift.
  destruct (get_covariate_probability idxs p) as [[prob|e] p1] eqn:Hprob;
    (assert (p1 = p) as ->
        by (now rewrite <- (get_covariate_probability_pure idxs p), Hprob));
    [|reflexivity].
  now destruct (arr_select (_y p) idxs).
Qed.

Lemma calc_cross_validation_wf p : cache_wf p -> cache_wf (snd (calc_cross_validation p)).
Proof.
  intros Hwf. destruct (calc_cross_validation p) as [[u|e] p1] eqn:Hcalc; cbn [snd].
  - destruct (calc_cross_validation_ok _ Hcalc)
      as (g & q & p3 & Hframe & -> & Hg & Hq & _).
    apply model_only_fields in Hframe. destruct Hframe as (_ & HK & _).
    right. exists g, q. cbn. rewrite HK. now repeat split.
  - apply calc_cross_validation_raise in Hcalc.
    eapply cache_wf_model_only; eassumption.
Qed.

Lemma ensure_cross_val_wf p : cache_wf p -> cache_wf (snd (ensure_cross_val p)).
Proof.
  intros Hwf. unfold ensure_cross_val.
  destruct (_cross_val_res p); [exact Hwf|now apply calc_cross_validation_wf].
Qed.

(** After [ensure_cross_val] has returned, a result is stored. *)
Lemma ensure_cross_val_stored p p1 :
  cache_wf p -> ensure_cross_val p = (Ok tt, p1) ->
  exists g q, _cross_val_res p1 = Some [g; q]
              /\ length g = Z.to_nat (_cv_splits p1)
              /\ length q = Z.to_nat (_cv_splits p1).
Proof.
  intros Hwf Hens.
  pose proof (ensure_cross_val_wf Hwf) as Hwf1. rewrite Hens in Hwf1.
  cbn [snd] in Hwf1. destruct Hwf1 as [Hnone|Hsome]; [|exact Hsome].
  exfalso. unfold ensure_cross_val in Hens.
  destruct (_cross_val_res p) as [c|] eqn:Hc.
  - injection Hens as <-. congruence.
  - destruct (calc_cross_validation_ok _ Hens) as (g & q & p3 & _ & -> & _).
    discriminate.
Qed.

Lemma get_cross_val_metric_state {A} (metric : ndarray -> ndarray -> result A) p :
  snd (get_cross_val_metric metric p) = snd (ensure_cross_val p).
Proof.
  unfold get_cross_val_metric, bind.
  destruct (ensure_cross_val p) as [[[]|e] p1]; [|reflexivity].
  pose proof (unpack2_pure p1) as Hpure.
  destruct (unpack2 p1) as [[gp|e] p2]; cbn [snd] in *; subst p2; reflexivity.
Qed.

Lemma plot_cross_validation_roc_state from_predictions p :
  snd (plot_cross_validation_roc from_predictions p) = snd (ensure_cross_val p).
Proof.
  unfold plot_cross_validation_roc, bind.
  destruct (ensure_cross_val p) as [[[]|e] p1]; [|reflexivity].
  pose proof (unpack3_pure p1) as Hpure.
  destruct (unpack3 p1) as [[gpp|e] p2]; cbn [snd] in *; subst p2; reflexivity.
Qed.

(** X4. A new Predictor has no stored result, and every method keeps the
    stored result well formed: absent, or the pair of lists with exactly
    one array per fold.  No method stores anything else. *)
Theorem stored_result_invariant :
  (forall (data : Data row df) (m : clf) K, cache_wf (Predictor_init data m K))
  /\ (forall t, preserves (df := df) cache_wf (fit_covariate_model t))
  /\ (forall idxs, preserves (df := df) cache_wf (get_covariate_probability idxs))
  /\ (forall d : df, preserves (df := df) cache_wf (predict_covariate_probability d))
  /\ (forall idxs, preserves (df := df) cache_wf (get_residuals idxs))
  /\ preserves (df := df) cache_wf calc_cross_validation
  /\ (forall A (metric : ndarray -> ndarray -> result A),
         preserves (df := df) cache_wf (get_cross_val_metric metric))
  /\ (forall from_predictions,
         preserves (df := df) cache_wf (plot_cross_validation_roc from_predictions)).
Proof.
  split; [intros data m K; now left|].
  split.
  { intros t p Hwf. eapply cache_wf_model_only; [|exact Hwf].
    apply (fit_covariate_model_frame t p (r := fst (fit_covariate_model t p))).
    now destruct (fit_covariate_model t p). }
  split; [intros idxs p Hwf; exact Hwf|].
  split; [intros d p Hwf; now rewrite predict_covariate_probability_pure|].
  split; [intros idxs p Hwf; now rewrite get_residuals_pure|].
  split; [intros p Hwf; now apply calc_cross_validation_wf|].
  split.
  - intros A metric p Hwf. rewrite get_cross_val_metric_state.
    now apply ensure_cross_val_wf.
  - intros from_predictions p Hwf. rewrite plot_cross_validation_roc_state.
    now apply ensure_cross_val_wf.
Qed.

Lemma mapR_ext {A B} (f f' : A -> result B) (l : list A) :
  (forall a, In a l -> f a = f' a) -> mapR f l = mapR f' l.
Proof.
  induction l as [|a l IH]; intros Hf; [reflexivity|]. cbn [mapR].
  rewrite (Hf a (or_introl eq_refl)), IH; [reflexivity|].
  intros b Hb. apply Hf. now right.
Qed.

Lemma mapR_shift {A B} (f : A -> result B) (h : nat -> A) (l : list nat) :
  mapR f (map h l) = mapR (fun i => f (h i)) l.
Proof.
  induction l as [|a l IH]; [reflexivity|]. cbn [map mapR]. now rewrite IH.
Qed.

(** Looking the folds up by their number is going through the pairs. *)
Lemma mapR_items {A} (metric : ndarray -> ndarray -> result A) (g : list ndarray) :
  forall q, length q = length g ->
  mapR (fun i => rbind (item g i) (fun a =>
                 rbind (item q i) (fun b => metric a b))) (seq 0 (length g))
  = mapR (fun f => metric (fst f) (snd f)) (combine g q).
Proof.
  induction g as [|a g IH]; intros [|b q] Hlen; try discriminate; [reflexivity|].
  cbn [length]. rewrite <- cons_seq, <- seq_shift.
  cbn [mapR combine]. rewrite mapR_shift.
  cbn [item nth_error rbind fst snd].
  rewrite <- (IH q) by (cbn in Hlen; lia). reflexivity.
Qed.

(** X5. Once the cross-validation is available, [get_cross_val_metric]
    applies the metric to the stored (ground truth, prediction) pairs in
    fold order and leaves the object as the lookup left it, also when
    the metric raises; what it returns has one score per fold. *)
Theorem metric_over_stored_folds {A} (metric : ndarray -> ndarray -> result A)
    p p1 :
  cache_wf p -> ensure_cross_val p = (Ok tt, p1) ->
  get_cross_val_metric metric p
  = (mapR (fun f => metric (fst f) (snd f)) (cached_folds p1), p1)
  /\ length (cached_folds p1) = Z.to_nat (_cv_splits p1)
  /\ forall res, fst (get_cross_val_metric metric p) = Ok res ->
                 length res = Z.to_nat (_cv_splits p1).
Proof.
  intros Hwf Hens.
  destruct (ensure_cross_val_stored Hwf Hens) as (g & q & Hc & Hg & Hq).
  assert (get_cross_val_metric metric p
          = (mapR (fun f => metric (fst f) (snd f)) (cached_folds p1), p1)) as Hrun.
  { unfold get_cross_val_metric, bind. rewrite Hens.
    unfold unpack2, cached_folds. rewrite Hc. cbn [self lift fst snd].
    unfold range. rewrite <- Hg. rewrite mapR_items by congruence. reflexivity. }
  assert (length (cached_folds p1) = Z.to_nat (_cv_splits p1)) as Hlen.
  { unfold cached_folds. rewrite Hc, length_combine. lia. }
  repeat split; try assumption.
  intros res Hres. rewrite Hrun in Hres. cbn [fst] in Hres.
  apply mapR_length in Hres. congruence.
Qed.

Lemma cache_blind_bind {A B} (m : @M row df clf A) (k : A -> @M row df clf B) :
  cache_blind m -> (forall a, cache_blind (k a)) -> cache_blind (bind m k).
Proof.
  intros Hm Hk c p. unfold bind. rewrite Hm.
  destruct (m p) as [[a|e] p1]; cbn [fst snd]; [apply Hk|reflexivity].
Qed.

Lemma fit_covariate_model_cache_blind train_idxs :
  cache_blind (df := df) (fit_covariate_model train_idxs).
Proof.
  intros c p. unfold fit_covariate_model, bind.
  destruct train_idxs as [idxs|]; cbn.
  - destruct (take (_X p) idxs); [|reflexivity].
    destruct (arr_take (_y p) idxs); [|reflexivity].
    now destruct (fit (_cov_model p) a a0).
  - now destruct (fit (_cov_model p) (_X p) (_y p)).
Qed.

Lemma cv_loop_cache_blind splits :
  forall g q, cache_blind (df := df) (cv_loop splits g q).
Proof.
  induction splits as [|[train test] rest IH]; intros g q.
  - intros c p. reflexivity.
  - cbn [cv_loop].
    apply cache_blind_bind; [apply fit_covariate_model_cache_blind|]. intros _.
    apply cache_blind_bind; [intros c p; reflexivity|]. intros gt.
    apply cache_blind_bind; [intros c p; reflexivity|]. intros pr. apply IH.
Qed.

(** X6. [calc_cross_validation] is the recomputation: it does not look at
    what is stored.  Run on an object with any stored result, it fits and
    predicts as on the same object without one, and on success leaves the
    very same object: the old result is replaced.  When it raises, the old
    result stays. *)
Theorem recomputation_replaces_stored p c :
  calc_cross_validation (set_cross_val_res p c)
  = match calc_cross_validation p with
    | (Ok u, p') => (Ok u, p')
    | (Raise e, p') => (Raise e, set_cross_val_res p' c)
    end.
Proof.
  unfold calc_cross_validation, bind. cbn [set_cross_val_res _cv_splits _X _y].
  destruct (TimeSeriesSplit_init (_cv_splits p)) as [K|e]; [|reflexivity].
  destruct (TimeSeriesSplit_split K (length (_X p)) (arr_len (_y p)))
    as [splits|e]; [|reflexivity].
  rewrite cv_loop_cache_blind.
  destruct (cv_loop splits [] [] p) as [[res|e] p1]; reflexivity.
Qed.

(** X7. On every object whose stored result is well formed, so on every
    object the methods can produce, [plot_cross_validation_roc] raises.
    When the pair is already stored the exception is the [ValueError] of
    the three-name unpacking, and nothing is fitted or changed. *)
Theorem plot_raises_on_every_stored_result from_predictions p :
  cache_wf p ->
  (exists e, fst (plot_cross_validation_roc from_predictions p) = Raise e)
  /\ forall g q, _cross_val_res p = Some [g; q] ->
       plot_cross_validation_roc from_predictions p
       = (Raise (ValueError UnpackMismatch), p).
Proof.
  intros Hwf.
  assert (forall g q, _cross_val_res p = Some [g; q] ->
            plot_cross_validation_roc from_predictions p
            = (Raise (ValueError UnpackMismatch), p)) as Hpair.
  { intros g q Hc. unfold plot_cross_validation_roc, bind, ensure_cross_val.
    rewrite Hc. unfold unpack3. rewrite Hc. reflexivity. }
  split; [|exact Hpair].
  destruct Hwf as [Hnone|(g & q & Hc & _)].
  - destruct (plot_cross_validation_roc_raises from_predictions _ Hnone)
      as (e & p' & Hrun & _).
    exists e. now rewrite Hrun.
  - exists (ValueError UnpackMismatch). now rewrite (Hpair g q Hc).
Qed.

End MethodFacts.

(** ** The splits of the cross-validation *)

(** Every split trains on the indices before its test block; the block
    has [n // (K + 1)] indices, at least one and no more than the training
    set, and ends inside the samples. *)
Lemma TimeSeriesSplit_split_blocks (K : Z) (n m : nat) splits :
  (0 <= K)%Z ->
  TimeSeriesSplit_split K n m = Ok splits ->
  Forall (fun s => exists start,
              fst s = seq 0 start
              /\ snd s = seq start (block_size K n)
              /\ (1 <= block_size K n <= start)%nat
              /\ (start + block_size K n <= n)%nat) splits.
Proof.
  intros HK Hs.
  assert (n = m /\ (K + 1 <= Z.of_nat n)%Z) as [-> Hn].
  { unfold TimeSeriesSplit_split in Hs.
    destruct (Nat.eqb_spec n m); cbn [negb] in Hs; [|discriminate].
    destruct (Z.gtb_spec (K + 1) (Z.of_nat n)); [discriminate|]. lia. }
  rewrite TimeSeriesSplit_split_ok in Hs by assumption.
  injection Hs as <-.
  pose proof (test_size_positive HK Hn) as Hts.
  pose proof (Z.mul_div_le (Z.of_nat m) (K + 1) ltac:(lia)) as Hle.
  unfold block_size. set (ts := (Z.of_nat m / (K + 1))%Z) in *.
  apply Forall_forall. intros s Hin.
  apply in_map_iff in Hin. destruct Hin as [start [<- Hstart]].
  apply in_map_iff in Hstart. destruct Hstart as [i [<- Hi]].
  apply in_seq in Hi.
  exists (Z.to_nat (Z.of_nat m - K * ts + Z.of_nat i * ts)).
  unfold split_at. cbn [fst snd].
  assert (0 <= Z.of_nat i * ts)%Z by nia.
  assert (Z.of_nat i * ts + ts <= K * ts)%Z by nia.
  repeat split; lia.
Qed.

(** X8. No fold trains on its own or on later samples: in every split the
    training set is not empty and is exactly the indices before the test
    block, the test block is not empty, and every test index is a valid
    row index. *)
Theorem training_precedes_testing (K : Z) (n m : nat) splits :
  (0 <= K)%Z ->
  TimeSeriesSplit_split K n m = Ok splits ->
  Forall (fun s => fst s <> [] /\ snd s <> []
                   /\ (forall i j, In i (fst s) -> In j (snd s) -> (i < j)%nat)
                   /\ (forall i j, In j (snd s) -> (i < j)%nat ->
                                   In i (fst s) \/ In i (snd s))
                   /\ (forall j, In j (snd s) -> (j < n)%nat)) splits.
Proof.
  intros HK Hs.
  eapply Forall_impl; [|exact (TimeSeriesSplit_split_blocks _ _ HK Hs)].
  intros [train test] (start & -> & -> & Hts & Hend). cbn [fst snd].
  repeat split.
  - intros Hnil. apply (f_equal (@length nat)) in Hnil.
    rewrite length_seq in Hnil. cbn in Hnil. lia.
  - intros Hnil. apply (f_equal (@length nat)) in Hnil.
    rewrite length_seq in Hnil. cbn in Hnil. lia.
  - intros i j Hi Hj. apply in_seq in Hi, Hj. lia.
  - intros i j Hj Hij. apply in_seq in Hj.
    destruct (Nat.lt_ge_cases i start); [left|right]; apply in_seq; lia.
  - intros j Hj. apply in_seq in Hj. lia.
Qed.

Lemma concat_blocks (a t k : nat) :
  concat (map (fun i => seq (a + i * t) t) (seq 0 k)) = seq a (k * t).
Proof.
  induction k as [|k IH]; [reflexivity|].
  rewrite seq_S, map_app, concat_app, IH. cbn [map concat plus].
  rewrite app_nil_r, <- seq_app. f_equal. lia.
Qed.

(** X9. The test blocks, one after the other, are exactly the last
    [K * (n // (K+1))] sample indices in their order: consecutive folds
    test on consecutive, disjoint blocks, and the last block ends with
    the last sample. *)
Theorem test_blocks_tile_the_tail (K : Z) (n m : nat) splits :
  (0 <= K)%Z ->
  TimeSeriesSplit_split K n m = Ok splits ->
  length splits = Z.to_nat K
  /\ (Z.to_nat K * block_size K n + block_size K n <= n)%nat
  /\ concat (map snd splits)
     = seq (n - Z.to_nat K * block_size K n) (Z.to_nat K * block_size K n).
Proof.
  intros HK Hs.
  pose proof (TimeSeriesSplit_split_length _ _ HK Hs) as Hlen.
  assert (n = m /\ (K + 1 <= Z.of_nat n)%Z) as [-> Hn].
  { unfold TimeSeriesSplit_split in Hs.
    destruct (Nat.eqb_spec n m); cbn [negb] in Hs; [|discriminate].
    destruct (Z.gtb_spec (K + 1) (Z.of_nat n)); [discriminate|]. lia. }
  rewrite TimeSeriesSplit_split_ok in Hs by assumption.
  injection Hs as <-.
  pose proof (test_size_positive HK Hn) as Hts.
  pose proof (Z.mul_div_le (Z.of_nat m) (K + 1) ltac:(lia)) as Hle.
  unfold block_size. set (ts := (Z.of_nat m / (K + 1))%Z) in *.
  assert (Z.of_nat (Z.to_nat K * Z.to_nat ts) = K * ts)%Z as Hprod
      by (rewrite Nat2Z.inj_mul, !Z2Nat.id by lia; reflexivity).
  split; [exact Hlen|]. split; [nia|].
  rewrite <- concat_blocks, !map_map. f_equal.
  apply map_ext_in. intros i Hi. apply in_seq in Hi.
  unfold split_at. cbn [snd]. f_equal.
  assert (Z.of_nat (i * Z.to_nat ts) = Z.of_nat i * ts)%Z as Hi_ts
      by (rewrite Nat2Z.inj_mul, Z2Nat.id by lia; reflexivity).
  assert (0 <= Z.of_nat i * ts)%Z by nia.
  apply Nat2Z.inj. rewrite Z2Nat.id by nia.
  rewrite Nat2Z.inj_add, Nat2Z.inj_sub by nia. rewrite Hprod, Hi_ts. reflexivity.
Qed.

(** Witnesses of X8 and X9: ten samples, three folds. *)
Lemma training_precedes_testing_witness :
  Forall (fun s => fst s <> [] /\ snd s <> []
                   /\ (forall i j, In i (fst s) -> In j (snd s) -> (i < j)%nat)
                   /\ (forall i j, In j (snd s) -> (i < j)%nat ->
                                   In i (fst s) \/ In i (snd s))
                   /\ (forall j, In j (snd s) -> (j < 10)%nat))
         [([0; 1; 2; 3], [4; 5]); ([0; 1; 2; 3; 4; 5], [6; 7]);
          ([0; 1; 2; 3; 4; 5; 6; 7], [8; 9])]%nat.
Proof.
  apply (@training_precedes_testing 3 10 10); [lia|vm_compute; reflexivity].
Defined.

Lemma test_blocks_tile_the_tail_witness :
  concat (map snd [([0; 1; 2; 3], [4; 5]); ([0; 1; 2; 3; 4; 5], [6; 7]);
                   ([0; 1; 2; 3; 4; 5; 6; 7], [8; 9])]%nat)
  = seq (10 - Z.to_nat 3 * block_size 3 10) (Z.to_nat 3 * block_size 3 10).
Proof.
  apply (@test_blocks_tile_the_tail 3 10 10); [lia|vm_compute; reflexivity].
Defined.

(** ** A whole cross-validation *)

Section CrossValidationFacts.

Context {row df clf : Type} `{Classifier row clf}.

Implicit Types p : @Predictor row df clf.





(** A loop over blocks inside the rows returns when the classifier does. *)
Lemma cv_loop_returns p0 splits :
  arr_len (_y p0) = length (_X p0) ->
  (forall m X y, (length X < length (_X p0))%nat -> fst (fit m X y) = Ok tt) ->
  (_is_binary p0 = true ->
   forall m X, exists P, predict_proba m X = Ok P /\ (2 <= ncols P)%nat) ->
  (_is_binary p0 = false -> forall m X, exists v, predict m X = Ok v) ->
  Forall (fun s => exists start t,
              fst s = seq 0 start /\ snd s = seq start t
              /\ (1 <= t)%nat /\ (start + t <= length (_X p0))%nat) splits ->
  forall g q p, model_only p0 p ->
  exists res p', cv_loop splits g q p = (Ok res, p').
Proof.
  intros Hlen Hfit Hproba Hpredict Hsplits.
  induction Hsplits as [|[train test] splits (start & t & Htrain & Htest & Ht & Hend) _ IH];
    intros g q p Hframe.
  - eexists _, _. reflexivity.
  - cbn [fst snd] in Htrain, Htest. subst train test.
    pose proof (model_only_fields Hframe) as (_ & _ & HX & Hy & Hbin & _).
    rewrite cv_loop_cons. unfold cv_fold, bind.
    unfold fit_covariate_model at 1. unfold bind.
    rewrite HX, Hy, take_seq by lia. cbn [skipn].
    destruct (@arr_take_seq_len (_y p0) 0 start ltac:(lia)) as (ytrain & -> & _).
    specialize (Hfit (_cov_model p) (firstn start (_X p0)) ytrain).
    destruct (fit (_cov_model p) (firstn start (_X p0)) ytrain) as [r m] eqn:Hm.
    cbn [fst] in Hfit. rewrite Hfit by (rewrite length_firstn; lia).
    cbn [set_cov_model _y _X]. rewrite Hy.
    destruct (@arr_take_seq_len (_y p0) start t ltac:(lia)) as (ytest & -> & _).
    unfold get_covariate_probability, ret.
    cbn [set_cov_model _is_binary _X _cov_model select]. rewrite HX, Hbin.
    rewrite take_seq by lia. cbn [rbind].
    assert (model_only p0 (set_cov_model p m)) as Hnext.
    { eapply model_only_trans; [exact Hframe|]. reflexivity. }
    destruct (_is_binary p0) eqn:Hmode.
    + destruct (Hproba eq_refl m (firstn t (skipn start (_X p0))))
        as (P & -> & Hcols).
      cbn [rbind]. unfold column1.
      destruct (Nat.leb_spec 2 (ncols P)); [|lia].
      apply IH. exact Hnext.
    + destruct (Hpredict eq_refl m (firstn t (skipn start (_X p0)))) as (v & ->).
      apply IH. exact Hnext.
Qed.

(** X11. With at least two folds, at least [K + 1] samples and a label
    for every row, [calc_cross_validation] returns and stores its result
    whenever the classifier accepts every training set smaller than the
    data and answers every prediction (with two probability columns for
    boolean labels): no index it computes is out of range. *)
Theorem cross_validation_returns p :
  (2 <= _cv_splits p)%Z ->
  (_cv_splits p + 1 <= Z.of_nat (length (_X p)))%Z ->
  arr_len (_y p) = length (_X p) ->
  (forall m X y, (length X < length (_X p))%nat -> fst (fit m X y) = Ok tt) ->
  (_is_binary p = true ->
   forall m X, exists P, predict_proba m X = Ok P /\ (2 <= ncols P)%nat) ->
  (_is_binary p = false -> forall m X, exists v, predict m X = Ok v) ->
  exists p' g q,
    calc_cross_validation p = (Ok tt, p')
    /\ _cross_val_res p' = Some [g; q]
    /\ length g = Z.to_nat (_cv_splits p)
    /\ length q = Z.to_nat (_cv_splits p).
Proof.
  intros HK Hn Hlen Hfit Hproba Hpredict.
  pose proof (TimeSeriesSplit_split_ok (K := _cv_splits p) (length (_X p))
                ltac:(lia) Hn) as Hsplit.
  set (splits := map _ _) in Hsplit.
  assert (exists res p', cv_loop splits [] [] p = (Ok res, p')) as (res & p1 & Hloop).
  { apply (cv_loop_returns (p0 := p)); try assumption.
    - assert (0 <= _cv_splits p)%Z as HK0 by lia.
      eapply Forall_impl;
        [|exact (TimeSeriesSplit_split_blocks _ _ HK0 Hsplit)].
      intros s (start & Htrain & Htest & Ht & Hend).
      exists start, (block_size (_cv_splits p) (length (_X p))).
      repeat split; try assumption; lia.
    - apply model_only_refl. }
  destruct res as [g q].
  exists (set_cross_val_res p1 (Some [g; q])), g, q.
  apply cv_loop_lengths in Hloop as Hlens. cbn [length] in Hlens.
  assert (0 <= _cv_splits p)%Z as HK0 by lia.
  pose proof (TimeSeriesSplit_split_length _ _ HK0 Hsplit) as Hcount.
  repeat split; try lia.
  unfold calc_cross_validation, bind, TimeSeriesSplit_init.
  destruct (Z.leb_spec (_cv_splits p) 1); [lia|].
  rewrite Hlen, Hsplit, Hloop. reflexivity.
Qed.

End CrossValidationFacts.

(** ** The number of fits *)

Section FitCount.

Context {row df clf : Type} {Hclf : Classifier row clf}.

#[local] Existing Instance counted_classifier.

Implicit Types p : @Predictor row df (counted clf).

Lemma fit_covariate_model_counts t p r p' :
  fit_covariate_model t p = (r, p') ->
  (fit_calls (_cov_model p') <= S (fit_calls (_cov_model p)))%nat
  /\ (r = Ok tt -> fit_calls (_cov_model p') = S (fit_calls (_cov_model p))).
Proof.
  unfold fit_covariate_model, bind. intros Hrun.
  destruct t as [idxs|].
  - destruct (take (_X p) idxs) as [X|e];
      [|injection Hrun as <- <-; split; [lia|discriminate]].
    destruct (arr_take (_y p) idxs) as [y|e];
      [|injection Hrun as <- <-; split; [lia|discriminate]].
    cbn [fit counted_classifier] in Hrun.
    destruct (fit (inner (_cov_model p)) X y) as [r0 m].
    injection Hrun as <- <-. cbn. split; [lia|reflexivity].
  - cbn [fit counted_classifier] in Hrun.
    destruct (fit (inner (_cov_model p)) (_X p) (_y p)) as [r0 m].
    injection Hrun as <- <-. cbn. split; [lia|reflexivity].
Qed.

Lemma cv_loop_counts splits : forall g q p r p',
  cv_loop splits g q p = (r, p') ->
  (fit_calls (_cov_model p') <= fit_calls (_cov_model p) + length splits)%nat
  /\ (forall res, r = Ok res ->
        fit_calls (_cov_model p') = (fit_calls (_cov_model p) + length splits)%nat).
Proof.
  induction splits as [|[train test] rest IH]; intros g q p r p' Hrun.
  - injection Hrun as <- <-. cbn. split; [lia|intros; lia].
  - cbn [cv_loop] in Hrun. unfold bind at 1 in Hrun.
    destruct (fit_covariate_model (Some train) p) as [rf p1] eqn:Hfit.
    apply fit_covariate_model_counts in Hfit. destruct Hfit as [Hle Heq].
    cbn [length].
    destruct rf as [[]|e];
      [specialize (Heq eq_refl)
      |injection Hrun as <- <-; split; [lia|discriminate]].
    unfold bind at 1 in Hrun.
    destruct (arr_take (_y p1) test) as [gt|e];
      [|injection Hrun as <- <-; split; [lia|discriminate]].
    unfold bind at 1 in Hrun.
    destruct (get_covariate_probability (Idxs test) p1) as [rp p2] eqn:Hpred.
    assert (p2 = p1) as ->
        by (now rewrite <- (get_covariate_probability_pure (Idxs test) p1), Hpred).
    destruct rp as [pr|e];
      [|injection Hrun as <- <-; split; [lia|discriminate]].
    apply IH in Hrun. destruct Hrun as [Hle' Heq'].
    split; [lia|]. intros res Hres. rewrite (Heq' res Hres). lia.
Qed.

Lemma calc_cross_validation_counts p r p' :
  calc_cross_validation p = (r, p') ->
  (fit_calls (_cov_model p')
   <= fit_calls (_cov_model p) + Z.to_nat (_cv_splits p))%nat
  /\ (r = Ok tt ->
      fit_calls (_cov_model p')
      = (fit_calls (_cov_model p) + Z.to_nat (_cv_splits p))%nat).
Proof.
  unfold calc_cross_validation, bind, TimeSeriesSplit_init. intros Hrun.
  destruct (Z.leb_spec (_cv_splits p) 1) as [|HK];
    [injection Hrun as <- <-; split; [lia|discriminate]|].
  destruct (TimeSeriesSplit_split (_cv_splits p) (length (_X p)) (arr_len (_y p)))
    as [splits|e] eqn:Hsplit;
    [|injection Hrun as <- <-; split; [lia|discriminate]].
  assert (0 <= _cv_splits p)%Z as HK0 by lia.
  pose proof (TimeSeriesSplit_split_length _ _ HK0 Hsplit) as Hcount.
  destruct (cv_loop splits [] [] p) as [[res|e] p1] eqn:Hloop;
    apply cv_loop_counts in Hloop; destruct Hloop as [Hle Heq];
    injection Hrun as <- <-; cbn [set_cross_val_res _cov_model].
  - split; [lia|]. intros _. rewrite (Heq res eq_refl). lia.
  - split; [lia|discriminate].
Qed.

(** X12. Counting the calls of the classifier's [fit]: a cross-validation
    that completes makes exactly [K] of them and one that raises at most
    [K]; [get_cross_val_metric] makes [K] when it has to compute the
    result and returns, and none when the result is stored, whether the
    metric raises or not. *)
Theorem cross_validation_fits_K_times p :
  (forall r p', calc_cross_validation p = (r, p') ->
     (fit_calls (_cov_model p')
      <= fit_calls (_cov_model p) + Z.to_nat (_cv_splits p))%nat
     /\ (r = Ok tt ->
         fit_calls (_cov_model p')
         = (fit_calls (_cov_model p) + Z.to_nat (_cv_splits p))%nat))
  /\ (forall A (metric : ndarray -> ndarray -> result A) r p',
        get_cross_val_metric metric p = (r, p') ->
        (_cross_val_res p <> None ->
         fit_calls (_cov_model p') = fit_calls (_cov_model p))
        /\ (_cross_val_res p = None -> forall res, r = Ok res ->
            fit_calls (_cov_model p')
            = (fit_calls (_cov_model p) + Z.to_nat (_cv_splits p))%nat)).
Proof.
  split; [intros r p'; apply calc_cross_validation_counts|].
  intros A metric r p' Hrun.
  pose proof (get_cross_val_metric_state metric p) as Hstate.
  rewrite Hrun in Hstate. cbn [snd] in Hstate. split.
  - intros Hsome. unfold ensure_cross_val in Hstate.
    destruct (_cross_val_res p); [now subst p'|contradiction].
  - intros Hnone res ->.
    unfold get_cross_val_metric, bind, ensure_cross_val in Hrun.
    unfold ensure_cross_val in Hstate. rewrite Hnone in Hrun, Hstate.
    destruct (calc_cross_validation p) as [[[]|e] p1] eqn:Hcalc; [|discriminate].
    cbn [snd] in Hstate. subst p1.
    apply calc_cross_validation_counts in Hcalc. now apply Hcalc.
Qed.

End FitCount.

(** ** The further properties on the small collaborators *)

Lemma all_indices_is_no_index_witness :
  get_covariate_probability (Idxs [0; 1; 2]%nat) small_predictor
  = get_covariate_probability SliceAll small_predictor.
Proof.
  apply (all_indices_is_no_index small_predictor). reflexivity.
Defined.

Lemma index_beyond_rows_raises_witness :
  fit_covariate_model (Some [0; 7]%nat) small_predictor
  = (Raise IndexError, small_predictor).
Proof.
  apply (@index_beyond_rows_raises _ _ _ _ small_predictor [0; 7]%nat 7%nat).
  - right. left. reflexivity.
  - vm_compute. lia.
Defined.

Lemma residuals_in_sym_unit_witness :
  fst (get_residuals SliceAll small_predictor)
  = Ok [1 / 2 - 0; 1 / 2 - 1; 1 / 2 - 0]%R
  /\ Forall in_sym_unit [1 / 2 - 0; 1 / 2 - 1; 1 / 2 - 0]%R.
Proof.
  split; [reflexivity|].
  apply (@residuals_in_sym_unit _ _ _ _ small_predictor SliceAll _ small_predictor
           toy_probabilities_in_unit eq_refl eq_refl).
  reflexivity.
Defined.

Lemma metric_over_stored_folds_witness :
  let p1 := snd (calc_cross_validation small_predictor) in
  get_cross_val_metric fold_itself small_predictor
  = (mapR (fun f => fold_itself (fst f) (snd f)) (cached_folds p1), p1).
Proof.
  apply (@metric_over_stored_folds _ _ _ _ _ fold_itself small_predictor).
  - left. reflexivity.
  - vm_compute. reflexivity.
Defined.

Lemma plot_raises_on_every_stored_result_witness :
  let p1 := snd (calc_cross_validation small_predictor) in
  plot_cross_validation_roc diagonal_roc p1 = (Raise (ValueError UnpackMismatch), p1).
Proof.
  apply (@plot_raises_on_every_stored_result _ _ _ _ diagonal_roc
           (snd (calc_cross_validation small_predictor)))
    with (g := [BoolArr [true]; BoolArr [false]])
         (q := [FloatArr [1 / 2]%R; FloatArr [1 / 2]%R]).
  - right. eexists _, _. vm_compute. repeat split; reflexivity.
  - vm_compute. reflexivity.
Defined.


Lemma cross_validation_returns_witness :
  exists p' g q,
    calc_cross_validation small_predictor = (Ok tt, p')
    /\ _cross_val_res p' = Some [g; q]
    /\ length g = 2%nat /\ length q = 2%nat.
Proof.
  apply (@cross_validation_returns _ _ _ _ small_predictor).
  - vm_compute. discriminate.
  - vm_compute. discriminate.
  - reflexivity.
  - intros m X y HX. cbn in HX. cbn [fit toy_classifier].
    destruct (Nat.leb_spec 4 (length X)); [lia|reflexivity].
  - intros _ m X. eexists. split; [reflexivity|]. cbn. lia.
  - intros Hmode. discriminate Hmode.
Defined.

Lemma cross_validation_fits_K_times_witness :
  fit_calls (_cov_model counted_predictor) = 0%nat
  /\ fit_calls (_cov_model
       (snd (@calc_cross_validation _ _ _ counted_classifier counted_predictor)))
     = (0 + 2)%nat.
Proof.
  split; [reflexivity|].
  destruct (@cross_validation_fits_K_times _ _ _ _ counted_predictor) as [Hcalc _].
  destruct (@calc_cross_validation _ _ _ counted_classifier counted_predictor)
    as [r p'] eqn:Hrun.
  destruct (Hcalc r p' eq_refl) as [_ Heq]. apply Heq.
  vm_compute in Hrun. now injection Hrun as <- _.
Defined.

(** * Further properties of the ROC aggregation *)

Open Scope R_scope.

Lemma mean_constant (c : R) (l : list R) :
  l <> [] -> Forall (fun v => v = c) l -> mean l = c.
Proof.
  intros Hne Hl. unfold mean.
  assert (Rsum l = c * INR (length l)) as ->.
  { clear Hne. induction Hl as [|v l Hv _ IH]; [cbn; lra|].
    change (Rsum (v :: l)) with (v + Rsum l).
    change (length (v :: l)) with (S (length l)). rewrite S_INR, IH, Hv. lra. }
  assert (0 < INR (length l)).
  { apply lt_0_INR. destruct l; [contradiction|cbn; lia]. }
  field. lra.
Qed.

(** Values that agree have no deviation. *)
Lemma std_constant (c : R) (l : list R) : Forall (fun v => v = c) l -> std l = 0.
Proof.
  intros Hl. unfold std.
  replace (mean (map (fun x => Rsqr (x - mean l)) l)) with 0; [apply sqrt_0|].
  symmetry. apply mean_zeros. apply Forall_map.
  destruct l as [|v l]; [constructor|].
  rewrite (mean_constant (c := c)) by (discriminate || assumption).
  eapply Forall_impl; [|exact Hl]. intros x ->. unfold Rsqr. lra.
Qed.




Section RocMore.

Variable from_predictions : ndarray -> ndarray -> result RocCurveDisplay.

(** The parts of a completed aggregation, index by index. *)
Lemma roc_aggregate_parts K g q agg :
  roc_aggregate from_predictions K g q = Ok agg ->
  exists folds,
    mapR (roc_fold from_predictions (linspace01 100) g q) (range K) = Ok folds
    /\ folds <> []
    /\ length (mean_tpr agg) = 100%nat
    /\ length (std_tpr agg) = 100%nat
    /\ nth 99 (mean_tpr agg) 0 = 1
    /\ (forall i, (i < 99)%nat ->
          nth i (mean_tpr agg) 0 = mean (column (map fst folds) i))
    /\ (forall i, (i < 100)%nat ->
          nth i (std_tpr agg) 0 = std (column (map fst folds) i))
    /\ (forall i, (i < 100)%nat ->
          nth i (tprs_upper agg) 0
          = Rmin (nth i (mean_tpr agg) 0 + nth i (std_tpr agg) 0) 1
          /\ nth i (tprs_lower agg) 0
             = Rmax (nth i (mean_tpr agg) 0 - nth i (std_tpr agg) 0) 0)
    /\ mean_auc agg = trapz (mean_tpr agg) (linspace01 100)
    /\ std_auc agg = std (map snd folds).
Proof.
  intros Hagg.
  destruct (roc_aggregate_ok _ _ _ _ Hagg) as (folds & Hfolds & Hsum & Hne & _ & _).
  apply roc_summary_ok in Hsum.
  destruct Hsum as (_ & _ & Hmean & Harea & Hstd_auc & Hstd & Hupper & Hlower).
  rewrite linspace01_length in Hmean, Hstd.
  destruct (set_last_ok _ _ Hmean) as (Hlen & _ & Hend & Hkeep).
  rewrite mean_axis0_length in Hlen, Hend, Hkeep.
  change (100 - 1)%nat with 99%nat in Hend, Hkeep.
  assert (length (std_tpr agg) = 100%nat) as Hlen_std
      by (rewrite Hstd; apply std_axis0_length).
  exists folds. repeat split; try assumption.
  - intros i Hi. rewrite Hkeep by assumption. unfold mean_axis0.
    now rewrite nth_map_seq by lia.
  - intros i Hi. rewrite Hstd. unfold std_axis0. now rewrite nth_map_seq.
  - rewrite Hupper, nth_map_in_range by (rewrite zip_with_length; lia).
    now rewrite zip_with_nth by lia.
  - rewrite Hlower, nth_map_in_range by (rewrite zip_with_length; lia).
    now rewrite zip_with_nth by lia.
  - rewrite auc_increasing in Harea.
    + injection Harea as <-. lra.
    + now rewrite linspace01_length.
    + rewrite linspace01_length. lia.
    + apply linspace01_increasing. lia.
Qed.





Lemma mapR_each {A B} (f : A -> result B) (l : list A) : forall bs,
  mapR f l = Ok bs -> forall a, In a l -> exists b, f a = Ok b.
Proof.
  induction l as [|x l IH]; intros bs Hbs a Hin; [contradiction|].
  cbn [mapR] in Hbs.
  destruct (f x) as [b|e] eqn:Hb; [|discriminate]. cbn [rbind] in Hbs.
  destruct (mapR f l) as [bs'|e]; [|discriminate].
  destruct Hin as [<-|Hin]; [now exists b|]. now apply (IH bs').
Qed.

(** When a round returns: the fold's arrays are there, the ROC routine
    returned, and its curve has points, as many rates of one kind as of
    the other. *)
Lemma roc_fold_returns_iff g q fold :
  (exists b, roc_fold from_predictions (linspace01 100) g q fold = Ok b)
  <-> exists y s viz,
        nth_error g fold = Some y /\ nth_error q fold = Some s
        /\ from_predictions y s = Ok viz
        /\ fpr viz <> [] /\ length (fpr viz) = length (tpr viz).
Proof.
  unfold roc_fold, item. split.
  - intros [b Hb].
    destruct (nth_error g fold) as [y|]; [|discriminate].
    destruct (nth_error q fold) as [s|]; [|discriminate]. cbn [rbind] in Hb.
    destruct (from_predictions y s) as [viz|e] eqn:Hviz; [|discriminate].
    cbn [rbind] in Hb. exists y, s, viz.
    do 2 (split; [reflexivity|]). split; [exact Hviz|]. split.
    + intros Hnil. unfold interp in Hb. now rewrite Hnil in Hb.
    + unfold interp in Hb. destruct (fpr viz) as [|x0 xp]; [discriminate|].
      destruct (Nat.eqb_spec (length (x0 :: xp)) (length (tpr viz)));
        [assumption|discriminate].
  - intros (y & s & viz & -> & -> & Hviz & Hne & Hlen). cbn [rbind].
    rewrite Hviz. cbn [rbind].
    destruct (@interp_ok (linspace01 100) _ _ Hne Hlen) as [ys Hys]. rewrite Hys.
    cbn [rbind]. apply interp_length in Hys. rewrite linspace01_length in Hys.
    destruct ys as [|y0 ys]; [discriminate|]. eexists. reflexivity.
Qed.

(** X15. The aggregation returns exactly when there is at least one fold
    and, for every fold, both lists hold an array, the ROC routine returns
    for them, and its curve has at least one point and as many
    false-positive as true-positive rates.  No fold is skipped: one fold
    without a curve makes the whole aggregation raise. *)
Theorem roc_aggregate_returns_iff K g q :
  (exists agg, roc_aggregate from_predictions K g q = Ok agg)
  <-> (1 <= K)%Z
      /\ forall fold, (fold < Z.to_nat K)%nat ->
           exists y s viz,
             nth_error g fold = Some y /\ nth_error q fold = Some s
             /\ from_predictions y s = Ok viz
             /\ fpr viz <> [] /\ length (fpr viz) = length (tpr viz).
Proof.
  split.
  - intros [agg Hagg].
    destruct (roc_aggregate_ok _ _ _ _ Hagg) as (folds & Hfolds & _ & Hne & _).
    pose proof (mapR_length _ _ Hfolds) as Hlen. unfold range in Hlen.
    rewrite length_seq in Hlen.
    split; [destruct folds; [contradiction|cbn in Hlen; lia]|].
    intros fold Hfold. apply roc_fold_returns_iff.
    apply (mapR_each _ _ Hfolds). apply in_seq. lia.
  - intros [HK Hall]. unfold roc_aggregate.
    assert (exists folds,
               mapR (roc_fold from_predictions (linspace01 100) g q) (range K)
               = Ok folds) as [folds Hfolds].
    { apply mapR_returns. apply Forall_forall. intros fold Hin.
      apply in_seq in Hin. apply roc_fold_returns_iff. apply Hall. lia. }
    rewrite Hfolds. cbn [rbind].
    pose proof (mapR_length _ _ Hfolds) as Hlen. unfold range in Hlen.
    rewrite length_seq in Hlen.
    unfold roc_summary.
    destruct folds as [|f folds]; [cbn in Hlen; lia|]. cbn [map].
    rewrite linspace01_length.
    destruct (set_last_returns 1 (a := mean_axis0 100 (fst f :: map fst folds)))
      as [m Hm].
    { intros Hnil. apply (f_equal (@length R)) in Hnil.
      rewrite mean_axis0_length in Hnil. discriminate. }
    rewrite Hm. cbn [rbind].
    destruct (set_last_ok _ _ Hm) as (Hlen_m & _).
    rewrite mean_axis0_length in Hlen_m.
    rewrite auc_increasing.
    + cbn [rbind]. eexists. reflexivity.
    + now rewrite linspace01_length.
    + rewrite linspace01_length. lia.
    + apply linspace01_increasing. lia.
Qed.




Lemma interp1_diagonal (x : R) :
  0 <= x <= 1 -> interp1 x [(0, 0); (1, 1)] = x.
Proof.
  intros Hx. cbn [interp1]. destruct (Rlt_dec x 0); [lra|].
  cbn [interp_scan]. destruct (Rle_dec 1 x); [lra|]. field.
Qed.

Lemma linspace01_nth (n i : nat) :
  (i < n)%nat -> nth i (linspace01 n) 0 = INR i / INR (n - 1).
Proof. intros Hi. unfold linspace01. now rewrite nth_map_seq. Qed.

Lemma linspace01_in_unit (n : nat) : (2 <= n)%nat -> Forall in_unit (linspace01 n).
Proof.
  intros Hn. unfold linspace01. apply Forall_map. apply Forall_forall.
  intros i Hi. apply in_seq in Hi.
  assert (0 < INR (n - 1)) as Hpos by (apply lt_0_INR; lia).
  assert (0 <= INR i <= INR (n - 1)) as Hbound
      by (split; [apply pos_INR|apply le_INR; lia]).
  unfold in_unit. split.
  - apply Rmult_le_pos; [lra|]. left. now apply Rinv_0_lt_compat.
  - apply Rmult_le_reg_r with (r := INR (n - 1)); [assumption|].
    unfold Rdiv. rewrite Rmult_assoc, Rinv_l by lra. lra.
Qed.

(** The area under a curve against itself. *)
Lemma trapz_self (x : list R) :
  trapz x x = (Rsqr (last x 0) - Rsqr (hd 0 x)) / 2.
Proof.
  induction x as [|x0 x IH]; [cbn; unfold Rsqr; lra|].
  destruct x as [|x1 x]; [cbn; unfold Rsqr; lra|].
  change (trapz (x0 :: x1 :: x) (x0 :: x1 :: x))
    with ((x1 - x0) * (x0 + x1) / 2 + trapz (x1 :: x) (x1 :: x)).
  rewrite IH.
  change (last (x0 :: x1 :: x) 0) with (last (x1 :: x) 0).
  cbn [hd]. unfold Rsqr. lra.
Qed.

(** X17. When every fold's curve is the diagonal from (0,0) to (1,1) with
    area 1/2, as for scores that do not separate the classes, a completed
    aggregation has the grid itself as its mean curve, a mean area of
    exactly 1/2 and no deviation of the area. *)
Theorem diagonal_folds_give_half K g q agg :
  (forall y s viz, from_predictions y s = Ok viz ->
     fpr viz = [0; 1] /\ tpr viz = [0; 1] /\ roc_auc viz = 1 / 2) ->
  roc_aggregate from_predictions K g q = Ok agg ->
  mean_tpr agg = linspace01 100
  /\ mean_auc agg = 1 / 2
  /\ std_auc agg = 0.
Proof.
  intros Hdiag Hagg.
  destruct (roc_aggregate_parts _ _ _ Hagg)
    as (folds & Hfolds & Hne & Hlen & _ & Hend & Hmean & _ & _ & Harea & Hstd_auc).
  assert (Forall (fun f : list R * R =>
                    (forall i, (i < 100)%nat ->
                       nth i (fst f) 0 = nth i (linspace01 100) 0)
                    /\ snd f = 1 / 2) folds) as Hrows.
  { eapply mapR_Forall; [|exact Hfolds]. intros fold [t a] Hfold. cbn [fst snd].
    unfold roc_fold in Hfold.
    destruct (item g fold) as [y|]; [|discriminate].
    destruct (item q fold) as [s|]; [|discriminate]. cbn [rbind] in Hfold.
    destruct (from_predictions y s) as [viz|e] eqn:Hviz; [|discriminate].
    destruct (Hdiag _ _ _ Hviz) as (Hfpr & Htpr & Hauc).
    cbn [rbind] in Hfold. rewrite Hfpr, Htpr in Hfold.
    unfold interp in Hfold. cbn [length Nat.eqb combine rbind] in Hfold.
    rewrite (map_ext_in _ (fun x => x)) in Hfold.
    2:{ intros x Hx. apply interp1_diagonal.
        pose proof (linspace01_in_unit (n := 100) ltac:(lia)) as Hgrid.
        rewrite Forall_forall in Hgrid. now apply Hgrid. }
    rewrite map_id in Hfold.
    destruct (set_first 0 (linspace01 100)) as [zs|e] eqn:Hzs; [|discriminate].
    cbn [rbind] in Hfold. injection Hfold as <- <-.
    destruct (set_first_ok _ _ Hzs) as (_ & Hfirst & Hrest).
    split; [|exact Hauc].
    intros [|i] Hi; [|apply Hrest].
    rewrite Hfirst, linspace01_nth by lia. cbn [INR]. unfold Rdiv. lra. }
  assert (mean_tpr agg = linspace01 100) as Hcurve.
  { apply (nth_ext _ _ 0 0); [now rewrite linspace01_length|].
    rewrite Hlen. intros i Hi. destruct (Nat.eq_dec i 99) as [->|Hi99].
    - rewrite Hend, linspace01_nth by lia.
      change (100 - 1)%nat with 99%nat.
      assert (0 < INR 99) by (apply lt_0_INR; lia). field. lra.
    - rewrite Hmean by lia. apply mean_constant.
      + unfold column. destruct folds; [contradiction|discriminate].
      + unfold column. rewrite map_map. apply Forall_map.
        eapply Forall_impl; [|exact Hrows]. intros f [Hf _]. now apply Hf. }
  split; [exact Hcurve|]. split.
  - rewrite Harea, Hcurve, trapz_self.
    assert (last (linspace01 100) 0 = 1) as ->.
    { unfold linspace01. change 100%nat with (S 99) at 2.
      rewrite seq_S, map_app. cbn [map]. rewrite last_last.
      change (100 - 1)%nat with 99%nat. cbn [plus].
      assert (0 < INR 99) by (apply lt_0_INR; lia). field. lra. }
    assert (hd 0 (linspace01 100) = 0) as ->.
    { change (hd 0 (linspace01 100)) with (nth 0 (linspace01 100) 0).
      rewrite linspace01_nth by lia. cbn [INR]. unfold Rdiv. lra. }
    unfold Rsqr. lra.
  - rewrite Hstd_auc. apply (std_constant (c := 1 / 2)).
    apply Forall_map. eapply Forall_impl; [|exact Hrows]. now intros f [_ ->].
Qed.

End RocMore.

(** ** The further properties on the diagonal curve *)

Lemma diagonal_roc_is_diagonal y s viz :
  diagonal_roc y s = Ok viz ->
  fpr viz = [0; 1] /\ tpr viz = [0; 1] /\ roc_auc viz = 1 / 2.
Proof. intros Hviz. injection Hviz as <-. now repeat split. Qed.




Lemma roc_aggregate_returns_iff_witness :
  exists y s viz,
    nth_error [BoolArr [true; false]; BoolArr [false; true]] 1 = Some y
    /\ nth_error [FloatArr [1 / 2; 1 / 2]; FloatArr [1 / 2; 1 / 2]] 1 = Some s
    /\ diagonal_roc y s = Ok viz
    /\ fpr viz <> [] /\ length (fpr viz) = length (tpr viz).
Proof.
  destruct (@roc_aggregate_returns_iff diagonal_roc 2
              [BoolArr [true; false]; BoolArr [false; true]]
              [FloatArr [1 / 2; 1 / 2]; FloatArr [1 / 2; 1 / 2]]) as [Hparts _].
  destruct (Hparts diagonal_aggregate_returns) as [_ Hall].
  apply (Hall 1%nat). cbn. lia.
Defined.


Lemma diagonal_folds_give_half_witness :
  exists agg,
    roc_aggregate diagonal_roc 2
      [BoolArr [true; false]; BoolArr [false; true]]
      [FloatArr [1 / 2; 1 / 2]; FloatArr [1 / 2; 1 / 2]] = Ok agg
    /\ mean_auc agg = 1 / 2 /\ std_auc agg = 0.
Proof.
  destruct diagonal_aggregate_returns as [agg Hagg]. exists agg.
  split; [exact Hagg|].
  destruct (@diagonal_folds_give_half diagonal_roc _ _ _ _
              diagonal_roc_is_diagonal Hagg) as (_ & Harea & Hstd).
  now split.
Defined.

Close Scope R_scope.
